(** * The detection service of [object_detection_api.py]

    A shallow embedding of the worker / snapshot store / summary / query
    subsystem of [src/object_detection_api.py] and of the detector of
    [src/object_detection_jetson.py], with the properties the
    specification states about them.

    Conventions of the embedding:
    - Python [float] is IEEE binary64, modelled by Rocq's primitive
      floats ([PrimFloat]), so that comparisons behave on NaN and on
      infinities as they do in the program;
    - Python [int] is [Z], [len] is a [nat]; a [numpy.int64] is a [Z]
      whose sums wrap around at 64 bits;
    - a [dict] whose iteration order is observable is an association
      list in insertion order;
    - a raised exception is the [inl] side of a sum;
    - the clock ([datetime.now().isoformat()]) and the collaborators
      outside the repository (camera pipeline, network, numpy's casts
      and mean) are inputs of the functions that use them. *)

From Stdlib Require Import ZArith List String Bool Lia Floats Uint63.
From stdpp Require Import base option list strings pretty.
Import ListNotations.

Set Warnings "-inexact-float".
Local Open Scope string_scope.
Local Open Scope Z_scope.

(** ** Exceptions *)

Inductive exn : Type :=
  | FileNotFoundError
  | RuntimeError
  | IndexError
  | ValueError
  | OverflowError
  | TypeError
  | KeyError
  | cv2_error.

(** [inr v] : the call returned [v]; [inl e] : it raised [e]. *)
Definition result (A : Type) : Type := (exn + A)%type.

Definition ret {A} (a : A) : result A := inr a.
Definition raise {A} (e : exn) : result A := inl e.
Definition bind {A B} (m : result A) (k : A -> result B) : result B :=
  match m with
  | inl e => inl e
  | inr a => k a
  end.

Declare Scope py_scope.
Delimit Scope py_scope with py.
Notation "'let*' x ':=' m 'in' k" := (bind m (fun x => k))
  (at level 10, x name, m at level 100, k at level 200) : py_scope.
Local Open Scope py_scope.

(** ** Floats *)

Abbreviation float := PrimFloat.float.

(** [a < b] and [a > b] on Python floats. *)
Definition flt (a b : float) : bool := PrimFloat.ltb a b.
Definition fgt (a b : float) : bool := PrimFloat.ltb b a.
(** [a >= b] and [a <= b], which the program never evaluates: they are
    the specification's way of saying what passes a filter. *)
Definition fge (a b : float) : bool := PrimFloat.leb b a.
Definition fle (a b : float) : bool := PrimFloat.leb a b.

Definition is_nan (a : float) : bool := negb (PrimFloat.eqb a a).

(** The conversion of an integer to binary64 (exact below 2^53, which
    covers every length and every pixel size here). *)
Definition float_of_Z (z : Z) : float :=
  match z with
  | Z0 => PrimFloat.zero
  | Zpos _ => PrimFloat.of_uint63 (Uint63.of_Z z)
  | Zneg p => PrimFloat.opp (PrimFloat.of_uint63 (Uint63.of_Z (Zpos p)))
  end.

(** Python's [int(x)] on a float: truncation toward zero; [ValueError]
    on NaN, [OverflowError] on an infinity. *)
Definition int_of_float (x : float) : result Z :=
  match Prim2SF x with
  | S754_nan => raise ValueError
  | S754_infinity _ => raise OverflowError
  | S754_zero _ => ret 0
  | S754_finite s m e =>
      let mag := match e with
                 | Zneg k => Z.shiftr (Zpos m) (Zpos k)
                 | _ => Z.shiftl (Zpos m) e
                 end in
      ret (if s then - mag else mag)
  end.

(** ** Data model *)

(** One entry of [current_detections]: the dict built in
    [_detection_loop].  The four corners of [det_bbox] are the
    [numpy.int64] of the detector's [box.astype("int")]. *)
Record Detection : Type := mkDetection {
  det_class : string;
  det_confidence : float;
  det_bbox : Z * Z * Z * Z;
  det_depth : float;
  det_timestamp : string
}.

(** ** [query_objects] *)

(** The request arguments after werkzeug's parsing: [None] when the
    parameter is missing (or, for the two floats, not a number
    literal). *)
Record QueryArgs : Type := mkQueryArgs {
  arg_class : option string;
  arg_min_confidence : option float;
  arg_max_depth : option float
}.

(** Truthiness of [request.args.get('class')]: [None] and the empty
    string are false. *)
Definition truthy_str (o : option string) : bool :=
  match o with
  | None => false
  | Some s => negb (String.eqb s "")
  end.

Definition str_ne (a : string) (o : option string) : bool :=
  match o with
  | None => true
  | Some b => negb (String.eqb a b)
  end.

Definition default_min_confidence : float := 0.5%float.

Definition min_confidence_of (q : QueryArgs) : float :=
  match arg_min_confidence q with
  | Some m => m
  | None => default_min_confidence
  end.

(** The body of the [for detection in detections] loop: [true] when the
    detection reaches [filtered.append]. *)
Definition query_keeps (obj_class : option string) (min_confidence : float)
    (max_depth : option float) (detection : Detection) : bool :=
  if truthy_str obj_class && str_ne (det_class detection) obj_class then false
  else if flt (det_confidence detection) min_confidence then false
  else if match max_depth with
          | Some m => fgt (det_depth detection) m
          | None => false
          end then false
  else true.

Fixpoint query_loop (obj_class : option string) (min_confidence : float)
    (max_depth : option float) (detections filtered : list Detection)
    : list Detection :=
  match detections with
  | [] => filtered
  | detection :: rest =>
      if query_keeps obj_class min_confidence max_depth detection
      then query_loop obj_class min_confidence max_depth rest (filtered ++ [detection])
      else query_loop obj_class min_confidence max_depth rest filtered
  end.

Record QueryEcho : Type := mkQueryEcho {
  echo_class : option string;
  echo_min_confidence : float;
  echo_max_depth : option float
}.

Record QueryResponse : Type := mkQueryResponse {
  qr_query : QueryEcho;
  qr_results : list Detection;
  qr_count : nat
}.

(** [filtered] when the loop of [query_objects] ends. *)
Definition filtered_of (q : QueryArgs) (detections : list Detection)
    : list Detection :=
  query_loop (arg_class q) (min_confidence_of q) (arg_max_depth q) detections [].

(** [jsonify] on a payload that holds the detections [l].  The bbox of
    a detection is the tuple of [np.int64] that [box.astype("int")]
    gave, copied as it is by the worker, and the JSON encoder does not
    know that type: it raises [TypeError] at the first detection it
    meets.  Strings, Python ints and floats (np.float64 and NaN
    included) are encoded. *)
Definition jsonify_detections (l : list Detection) : result unit :=
  match l with
  | [] => ret tt
  | _ :: _ => raise TypeError
  end.

(** [query_objects], on the copy [detections] that
    [api.get_current_detections()] returned: the body of the answer,
    or the exception that escapes the route. *)
Definition query_objects (q : QueryArgs) (detections : list Detection)
    : result QueryResponse :=
  let obj_class := arg_class q in
  let min_confidence := min_confidence_of q in
  let max_depth := arg_max_depth q in
  let filtered := query_loop obj_class min_confidence max_depth detections [] in
  let* encoded := jsonify_detections filtered in
  ret {| qr_query := {| echo_class := obj_class;
                        echo_min_confidence := min_confidence;
                        echo_max_depth := max_depth |};
         qr_results := filtered;
         qr_count := length filtered |}.

(** ** [get_detection_summary] *)

(** [class_counts]: a dict from class name to count; [items()] yields
    the keys in the order of their first insertion. *)
Definition class_counts_t : Type := list (string * nat).

Fixpoint dict_get (k : string) (m : class_counts_t) : option nat :=
  match m with
  | [] => None
  | (k', v) :: rest => if String.eqb k' k then Some v else dict_get k rest
  end.

(** [m[k] = v]: an existing key keeps its place, a new key goes last. *)
Fixpoint dict_set (k : string) (v : nat) (m : class_counts_t) : class_counts_t :=
  match m with
  | [] => [(k, v)]
  | (k', v') :: rest =>
      if String.eqb k' k then (k', v) :: rest else (k', v') :: dict_set k v rest
  end.

(** One turn of [for detection in detections] over [class_counts]. *)
Definition count_step (class_counts : class_counts_t) (detection : Detection)
    : class_counts_t :=
  let obj_class := det_class detection in
  let class_counts :=
    match dict_get obj_class class_counts with
    | None => dict_set obj_class 0%nat class_counts
    | Some _ => class_counts
    end in
  match dict_get obj_class class_counts with
  | Some n => dict_set obj_class (n + 1)%nat class_counts
  | None => class_counts
  end.

Definition count_classes (detections : list Detection) : class_counts_t :=
  fold_left count_step detections [].

(** [[d['depth'] for d in detections if d['class'] == obj_class]] *)
Definition depths_of (obj_class : string) (detections : list Detection)
    : list float :=
  map det_depth
    (List.filter (fun d => String.eqb (det_class d) obj_class) detections).

(** The mean of a list of floats with the sum taken from the left.
    [np.mean] is numpy's: on fewer than 8 numbers it adds them in this
    order and divides by their count, from 8 numbers on it adds them in
    blocks, which rounds otherwise.  The functions below take numpy's
    mean as the parameter [np_mean]; [left_mean] is what it computes on
    fewer than 8 positive numbers, and stands for it where a summary is
    run. *)
Definition left_sum (l : list float) : float :=
  fold_left PrimFloat.add l PrimFloat.zero.

Definition left_mean (l : list float) : float :=
  PrimFloat.div (left_sum l) (float_of_Z (Z.of_nat (length l))).


Record ClassSummary : Type := mkClassSummary {
  cs_class : string;
  cs_count : nat;
  cs_average_depth : float
}.

Record Summary : Type := mkSummary {
  total_objects : nat;
  objects : list ClassSummary;
  timestamp : string
}.

(** The dict the comprehension builds for one item
    [obj_class, count] of [class_counts.items()]. *)
Definition entry_of (np_mean : list float -> float)
    (detections : list Detection) (item : string * nat) : ClassSummary :=
  let '(obj_class, count) := item in
  {| cs_class := obj_class;
     cs_count := count;
     cs_average_depth := np_mean (depths_of obj_class detections) |}.

(** The summary of the copy [detections]; [now] is what
    [datetime.now().isoformat()] returns when the dict is built. *)
Definition summary_of (np_mean : list float -> float) (now : string)
    (detections : list Detection) : Summary :=
  match detections with
  | [] => {| total_objects := 0; objects := []; timestamp := now |}
  | _ :: _ =>
      let class_counts := count_classes detections in
      {| total_objects := length detections;
         objects := map (entry_of np_mean detections) class_counts;
         timestamp := now |}
  end.

(** The number of detections of class [c] in [l], the sum of the
    counts of a dict and its keys: what the properties of the summary
    are stated with. *)
Definition count_of (c : string) (l : list Detection) : nat :=
  length (List.filter (fun d => String.eqb (det_class d) c) l).

Definition sum_counts (m : class_counts_t) : nat :=
  fold_right (fun p acc => (snd p + acc)%nat) 0%nat m.

Definition keys (m : class_counts_t) : list string := map fst m.

(** ** [ObjectDetector] (object_detection_jetson.py) *)

(** [self.classes], the literal [load_model] assigns. *)
Definition classes : list string :=
  [ "background"; "aeroplane"; "bicycle"; "bird"; "boat";
    "bottle"; "bus"; "car"; "cat"; "chair"; "cow"; "diningtable";
    "dog"; "horse"; "motorbike"; "person"; "pottedplant"; "sheep";
    "sofa"; "train"; "tvmonitor" ].

(** [l[idx]] on a Python list: a negative index counts from the end,
    an index outside [-len, len) raises [IndexError]. *)
Definition py_index {A} (l : list A) (idx : Z) : result A :=
  let n := Z.of_nat (length l) in
  let i := if idx <? 0 then idx + n else idx in
  if (i <? 0) || (n <=? i) then raise IndexError
  else match nth_error l (Z.to_nat i) with
       | Some a => ret a
       | None => raise IndexError
       end.

(** What the machine offers when [ObjectDetector()] runs. *)
Record Env : Type := mkEnv {
  pipeline_starts : bool;     (* [self.pipeline.start(self.config)] returns *)
  prototxt_exists : bool;     (* [os.path.exists(prototxt_path)] *)
  caffemodel_exists : bool;   (* [os.path.exists(caffemodel_path)] *)
  net_loads : bool            (* [readNetFromCaffe] and the CUDA setters return *)
}.

(** An [ObjectDetector] instance: the pipeline and the network are
    handles to the collaborators, the label list is [classes]. *)
Inductive ObjectDetector : Type := ObjectDetector_instance.

Definition load_model (env : Env) : result unit :=
  if negb (prototxt_exists env) || negb (caffemodel_exists env)
  then raise FileNotFoundError
  else if net_loads env then ret tt else raise cv2_error.

(** [ObjectDetector.__init__] *)
Definition ObjectDetector_init (env : Env) : result ObjectDetector :=
  if pipeline_starts env
  then let* u := load_model env in ret ObjectDetector_instance
  else raise RuntimeError.

(** A row [detections[0, 0, i, :]] of the network's output; its numbers
    are float32, each of which is a binary64 number, and comparing with
    0.5 gives the same answer in both formats. *)
Record NetRow : Type := mkNetRow {
  row_class_id : float;    (* [detections[0, 0, i, 1]] *)
  row_confidence : float;  (* [detections[0, 0, i, 2]] *)
  row_box : float * float * float * float   (* [detections[0, 0, i, 3:7]] *)
}.

(** An entry of the list [detect_objects] returns. *)
Record RawObject : Type := mkRawObject {
  obj_class : string;
  obj_confidence : float;
  obj_bbox : Z * Z * Z * Z
}.

Definition confidence_threshold : float := 0.5%float.

Section Collaborators.

(** The collaborators outside the repository. *)
Context {Image DepthFrame : Type}.
(** [frame.shape[:2]], as [(h, w)]. *)
Variable shape : Image -> Z * Z.
(** [blobFromImage], [setInput] and [net.forward()] on a frame: the
    rows of the output, or the exception raised. *)
Variable forward : Image -> result (list NetRow).
(** numpy's [astype("int")] on one float64. *)
Variable astype_int : float -> Z.
(** [depth_frame.get_distance(x, y)]. *)
Variable get_distance : DepthFrame -> Z -> Z -> result float.

(** [detections[0, 0, i, 3:7] * np.array([w, h, w, h])], cast. *)
Definition scale_box (h w : Z) (box : float * float * float * float)
    : Z * Z * Z * Z :=
  let '(x1, y1, x2, y2) := box in
  (astype_int (PrimFloat.mul x1 (float_of_Z w)),
   astype_int (PrimFloat.mul y1 (float_of_Z h)),
   astype_int (PrimFloat.mul x2 (float_of_Z w)),
   astype_int (PrimFloat.mul y2 (float_of_Z h))).

(** The [for i in range(detections.shape[2])] loop of
    [detect_objects], [objects] being the list built so far. *)
Fixpoint detect_loop (h w : Z) (rows : list NetRow) (objects : list RawObject)
    : result (list RawObject) :=
  match rows with
  | [] => ret objects
  | row :: rest =>
      let confidence := row_confidence row in
      if fgt confidence confidence_threshold then
        let* idx := int_of_float (row_class_id row) in
        let bbox := scale_box h w (row_box row) in
        let* cls := py_index classes idx in
        detect_loop h w rest
          (objects ++ [ {| obj_class := cls;
                           obj_confidence := confidence;
                           obj_bbox := bbox |} ])
      else detect_loop h w rest objects
  end.

Definition detect_objects (frame : Image) : result (list RawObject) :=
  let* detections := forward frame in
  let '(h, w) := shape frame in
  detect_loop h w detections [].

Definition get_depth_at_point (depth_frame : DepthFrame) (x y : Z)
    : result float :=
  get_distance depth_frame x y.

End Collaborators.

(** ** [ObjectDetectionAPI] (object_detection_api.py) *)

(** [threading.Thread(target=self._detection_loop)]. *)
Record Thread : Type := mkThread { daemon : bool }.

(** The attributes of the instance ([self.lock] is in [Store] below). *)
Record API : Type := mkAPI {
  detector : option ObjectDetector;
  is_running : bool;
  current_detections : list Detection;
  detection_thread : option Thread
}.

(** [ObjectDetectionAPI.__init__] *)
Definition API_init : API :=
  {| detector := None;
     is_running := false;
     current_detections := [];
     detection_thread := None |}.

(** What a call does to the threads of the process. *)
Inductive Effect : Type :=
  | ThreadStart (t : Thread)                     (* [t.start()] *)
  | ThreadJoin (t : Thread) (timeout : float).   (* [t.join(timeout=...)] *)

Record Response : Type := mkResponse {
  status : string;
  message : string
}.

Definition already_running : Response :=
  {| status := "already_running"; message := "Detection already running" |}.
Definition error : Response :=
  {| status := "error"; message := "Failed to initialize detector" |}.
Definition started : Response :=
  {| status := "started"; message := "Object detection started" |}.
Definition stopped : Response :=
  {| status := "stopped"; message := "Object detection stopped" |}.

Definition set_detector (d : option ObjectDetector) (s : API) : API :=
  {| detector := d;
     is_running := is_running s;
     current_detections := current_detections s;
     detection_thread := detection_thread s |}.

Definition set_is_running (b : bool) (s : API) : API :=
  {| detector := detector s;
     is_running := b;
     current_detections := current_detections s;
     detection_thread := detection_thread s |}.

Definition set_current_detections (l : list Detection) (s : API) : API :=
  {| detector := detector s;
     is_running := is_running s;
     current_detections := l;
     detection_thread := detection_thread s |}.

Definition set_detection_thread (t : option Thread) (s : API) : API :=
  {| detector := detector s;
     is_running := is_running s;
     current_detections := current_detections s;
     detection_thread := t |}.

(** [initialize_detector]: every exception of the constructor is
    caught and turned into [False]. *)
Definition initialize_detector (env : Env) (s : API) : bool * API :=
  match ObjectDetector_init env with
  | inr d => (true, set_detector (Some d) s)
  | inl _ => (false, s)
  end.

(** [start_detection] *)
Definition start_detection (env : Env) (s : API)
    : Response * API * list Effect :=
  if is_running s then (already_running, s, [])
  else
    let '(ok, s) :=
      match detector s with
      | None => initialize_detector env s
      | Some _ => (true, s)
      end in
    if negb ok then (error, s, [])
    else
      let s := set_is_running true s in
      let s := set_detection_thread (Some {| daemon := false |}) s in
      let s := set_detection_thread (Some {| daemon := true |}) s in
      (started, s, [ThreadStart {| daemon := true |}]).

(** [stop_detection] *)
Definition stop_detection (s : API) : Response * API * list Effect :=
  let s := set_is_running false s in
  let joined :=
    match detection_thread s with
    | Some t => [ThreadJoin t 2.0%float]
    | None => []
    end in
  (stopped, s, joined).

(** [get_current_detections]: the copy taken under the lock (the
    interleaving with the worker is the subject of [Store]). *)
Definition get_current_detections (s : API) : list Detection :=
  current_detections s.

(** [get_detection_summary] *)
Definition get_detection_summary (np_mean : list float -> float)
    (now : string) (s : API) : Summary :=
  summary_of np_mean now (get_current_detections s).

Record Health : Type := mkHealth {
  health_status : string;
  health_timestamp : string;
  detector_initialized : bool;
  detection_running : bool
}.

(** The [/health] route. *)
Definition health (now : string) (s : API) : Health :=
  {| health_status := "healthy";
     health_timestamp := now;
     detector_initialized := match detector s with Some _ => true | None => false end;
     detection_running := is_running s |}.

(** The [/query] route on the instance. *)
Definition query (q : QueryArgs) (s : API) : result QueryResponse :=
  query_objects q (get_current_detections s).

(** *** The worker loop *)

Section Worker.

Context {Image DepthFrame : Type}.
Variable shape : Image -> Z * Z.
Variable forward : Image -> result (list NetRow).
Variable astype_int : float -> Z.
Variable get_distance : DepthFrame -> Z -> Z -> result float.

(** What one turn of the loop gets from outside: the outcome of
    [wait_for_frames()] with the two frames ([None] for a frame that
    is not there), and the clock, [clock k] being the reading taken
    for the [k]-th detection of the turn. *)
Record Cycle : Type := mkCycle {
  frames : result (option Image * option DepthFrame);
  clock : nat -> string
}.

(** A sum of two [np.int64]: it wraps around at 64 bits. *)
Definition wrap64 (z : Z) : Z :=
  (z + 2 ^ 63) mod 2 ^ 64 - 2 ^ 63.

Definition add64 (a b : Z) : Z := wrap64 (a + b).

(** The [for obj in objects] loop; the corners of a box are [np.int64],
    [float(...)] leaves the value of a float as it is, [//] is the
    division that rounds down. *)
Fixpoint enrich (depth_frame : DepthFrame) (clock : nat -> string)
    (objects : list RawObject) (detections : list Detection)
    : result (list Detection) :=
  match objects with
  | [] => ret detections
  | obj :: rest =>
      let '(startX, startY, endX, endY) := obj_bbox obj in
      let center_x := add64 startX endX / 2 in
      let center_y := add64 startY endY / 2 in
      let* depth := get_depth_at_point get_distance depth_frame center_x center_y in
      enrich depth_frame clock rest
        (detections ++ [ {| det_class := obj_class obj;
                            det_confidence := obj_confidence obj;
                            det_bbox := obj_bbox obj;
                            det_depth := depth;
                            det_timestamp := clock (length detections) |} ])
  end.

(** The snapshot a turn computes: [None] when a frame is missing
    ([continue]). *)
Definition cycle_detections (c : Cycle) : result (option (list Detection)) :=
  let* fr := frames c in
  match fr with
  | (Some color_image, Some depth_frame) =>
      let* objects := detect_objects shape forward astype_int color_image in
      let* detections := enrich depth_frame (clock c) objects [] in
      ret (Some detections)
  | _ => ret None
  end.

Inductive LoopStatus : Type :=
  | Looping     (* the thread is back at the [while] test *)
  | Returned.   (* [_detection_loop] has returned: the thread is over *)

(** One turn of [while self.is_running], from the test to the next
    test, inside the [try]. *)
Definition loop_turn (c : Cycle) (s : API) : LoopStatus * API :=
  if negb (is_running s) then (Returned, s)
  else match detector s with
       | None => (Returned, s)
       | Some _ =>
           match cycle_detections c with
           | inr None => (Looping, s)
           | inr (Some detections) => (Looping, set_current_detections detections s)
           | inl _ => (Returned, set_is_running false s)
           end
       end.

(** The thread running on its own through the turns [cs]. *)
Fixpoint detection_loop (cs : list Cycle) (s : API) : LoopStatus * API :=
  match cs with
  | [] => (Looping, s)
  | c :: rest =>
      match loop_turn c s with
      | (Looping, s') => detection_loop rest s'
      | (Returned, s') => (Returned, s')
      end
  end.

End Worker.

(** *** Collaborators to run the worker on

    A frame that carries what the network answers on it, a depth frame
    that is its own distance table, and the cast that truncates (numpy
    leaves the cast of a NaN or an infinity to the platform; 0 here). *)

Record TestImage : Type := mkTestImage {
  im_shape : Z * Z;
  im_output : result (list NetRow)
}.

Definition TestDepth : Type := Z -> Z -> result float.

Definition trunc_cast (x : float) : Z :=
  match int_of_float x with
  | inr z => z
  | inl _ => 0
  end.

Definition test_distance (depth_frame : TestDepth) (x y : Z) : result float :=
  depth_frame x y.

Definition test_cycle_detections (c : @Cycle TestImage TestDepth)
    : result (option (list Detection)) :=
  cycle_detections im_shape im_output trunc_cast test_distance c.

Definition test_loop (cs : list (@Cycle TestImage TestDepth)) (s : API)
    : LoopStatus * API :=
  detection_loop im_shape im_output trunc_cast test_distance cs s.

Definition at_noon (k : nat) : string := "2024-01-01T12:00:00".

(** A turn on which the network finds a chair (class 9, confidence
    0.7) and rejects a row of confidence 0.3. *)
Definition chair_cycle : @Cycle TestImage TestDepth :=
  {| frames :=
       ret (Some {| im_shape := (480, 640);
                    im_output :=
                      ret [ mkNetRow 9%float 0.7%float
                              (0.25%float, 0.25%float, 0.5%float, 0.75%float);
                            mkNetRow 15%float 0.3%float
                              (0%float, 0%float, 1%float, 1%float) ] |},
            Some (fun x y => ret 1.5%float));
     clock := at_noon |}.

(** A turn on which inference raises. *)
Definition failing_cycle : @Cycle TestImage TestDepth :=
  {| frames :=
       ret (Some {| im_shape := (480, 640); im_output := raise cv2_error |},
            Some (fun x y => ret 1.5%float));
     clock := at_noon |}.

(** A machine with the camera and the model files, and one without the
    model files. *)
Definition good_env : Env :=
  {| pipeline_starts := true; prototxt_exists := true;
     caffemodel_exists := true; net_loads := true |}.

Definition no_model_env : Env :=
  {| pipeline_starts := true; prototxt_exists := false;
     caffemodel_exists := false; net_loads := true |}.

(** The three parts of what a lifecycle call returns. *)
Definition response_of {A B C} (r : A * B * C) : A := fst (fst r).
Definition state_of {A B C} (r : A * B * C) : B := snd (fst r).
Definition effects_of {A B C} (r : A * B * C) : C := snd r.

(** The instance after a first [start()] on the good machine and one
    turn of the worker. *)
Definition running_api : API :=
  snd (test_loop [chair_cycle] (state_of (start_detection good_env API_init))).

(** ** The snapshot store under concurrency

    [self.current_detections] and [self.lock], with the one writer
    (lines 98-99 of the worker loop, [with self.lock:
    self.current_detections = detections]) and any number of readers
    ([get_current_detections], [with self.lock: return
    self.current_detections.copy()]).  The threads are interleaved one
    step at a time; a copy takes one step per element, so that a reader
    can be preempted in the middle of it. *)

Module Store.

Inductive tid : Type :=
  | Writer
  | Reader (i : nat).

(** The worker, between and inside its [with self.lock] blocks;
    [pending] are the lists of the turns to come. *)
Inductive wstate : Type :=
  | WOutside (pending : list (list Detection))
  | WLocked (detections : list Detection) (pending : list (list Detection))
  | WAssigned (pending : list (list Detection)).

(** One call of [get_current_detections]. *)
Inductive rstate : Type :=
  | RCalled                               (* before [with self.lock] *)
  | RCopying (acc : list Detection)       (* inside [.copy()] *)
  | RCopied (acc : list Detection)        (* copy made, lock still held *)
  | RReturned (r : list Detection).       (* lock released, [r] returned *)

Record sys : Type := mkSys {
  lock : option tid;
  store : list Detection;
  writer : wstate;
  readers : list rstate
}.

(** The thread the scheduler runs next. *)
Definition action : Type := tid.

Definition writer_step (s : sys) : option sys :=
  match writer s with
  | WOutside [] => None
  | WOutside (l :: pending) =>
      match lock s with
      | None => Some {| lock := Some Writer; store := store s;
                        writer := WLocked l pending; readers := readers s |}
      | Some _ => None
      end
  | WLocked l pending =>
      Some {| lock := lock s; store := l;
              writer := WAssigned pending; readers := readers s |}
  | WAssigned pending =>
      Some {| lock := None; store := store s;
              writer := WOutside pending; readers := readers s |}
  end.

Definition reader_step (i : nat) (s : sys) : option sys :=
  match readers s !! i with
  | None => None
  | Some RCalled =>
      match lock s with
      | None => Some {| lock := Some (Reader i); store := store s;
                        writer := writer s;
                        readers := <[i := RCopying []]> (readers s) |}
      | Some _ => None
      end
  | Some (RCopying acc) =>
      match store s !! length acc with
      | Some d => Some {| lock := lock s; store := store s; writer := writer s;
                          readers := <[i := RCopying (acc ++ [d])]> (readers s) |}
      | None => Some {| lock := lock s; store := store s; writer := writer s;
                        readers := <[i := RCopied acc]> (readers s) |}
      end
  | Some (RCopied acc) =>
      Some {| lock := None; store := store s; writer := writer s;
              readers := <[i := RReturned acc]> (readers s) |}
  | Some (RReturned _) => None
  end.

(** One step of the chosen thread; [None] when it is blocked on the
    lock or has nothing left to do. *)
Definition step (a : action) (s : sys) : option sys :=
  match a with
  | Writer => writer_step s
  | Reader i => reader_step i s
  end.

(** A schedule; a thread that cannot move is skipped. *)
Fixpoint run (sched : list action) (s : sys) : sys :=
  match sched with
  | [] => s
  | a :: rest =>
      match step a s with
      | Some s' => run rest s'
      | None => run rest s
      end
  end.

(** The store holds [prev], the worker is about to install the lists
    [news] one after the other, [n] readers have been called. *)
Definition init (prev : list Detection) (news : list (list Detection)) (n : nat)
    : sys :=
  {| lock := None; store := prev; writer := WOutside news;
     readers := replicate n RCalled |}.

(** What reader [i] has returned, if it has. *)
Definition returned (i : nat) (s : sys) : option (list Detection) :=
  match readers s !! i with
  | Some (RReturned r) => Some r
  | _ => None
  end.

(** The schedule that lets reader [i] run alone through a store of
    [n] elements. *)
Definition solo (i n : nat) : list action := replicate (n + 3) (Reader i).

(** What holds of the threads in every reachable state; [hist] are the
    lists the store has held or will hold. *)
Definition reader_ok (lk : option tid) (st : list Detection)
    (hist : list (list Detection)) (i : nat) (r : rstate) : Prop :=
  match r with
  | RCalled => True
  | RCopying acc => lk = Some (Reader i) /\ acc = take (length acc) st
  | RCopied acc => lk = Some (Reader i) /\ acc = st
  | RReturned x => In x hist
  end.

Definition writer_ok (lk : option tid) (news : list (list Detection))
    (w : wstate) : Prop :=
  match w with
  | WOutside pending => lk <> Some Writer /\ incl pending news
  | WLocked l pending => lk = Some Writer /\ In l news /\ incl pending news
  | WAssigned pending => lk = Some Writer /\ incl pending news
  end.

Definition inv (prev : list Detection) (news : list (list Detection)) (s : sys)
    : Prop :=
  In (store s) (prev :: news)
  /\ writer_ok (lock s) news (writer s)
  /\ (forall i r, readers s !! i = Some r ->
                  reader_ok (lock s) (store s) (prev :: news) i r).

(** A schedule of two readers around one replacement: reader 0 takes
    the lock and copies, the worker finds the lock held, reader 0
    finishes, the worker installs its list, reader 1 reads. *)
Definition interleaving : list action :=
  [ Reader 0; Reader 0; Writer; Reader 1; Reader 0; Reader 0;
    Writer; Reader 1; Writer; Writer;
    Reader 1; Reader 1; Reader 1; Reader 1; Reader 1 ].

(** Inside a [with self.lock] block. *)
Definition reader_inside (r : rstate) : bool :=
  match r with
  | RCopying _ | RCopied _ => true
  | _ => false
  end.

Definition writer_inside (w : wstate) : bool :=
  match w with
  | WLocked _ _ | WAssigned _ => true
  | WOutside _ => false
  end.

Definition reader_done (r : rstate) : bool :=
  match r with
  | RReturned _ => true
  | _ => false
  end.

(** Every thread has done all it had to do. *)
Definition finished (s : sys) : bool :=
  match writer s with
  | WOutside [] => forallb reader_done (readers s)
  | _ => false
  end.

(** Whoever the lock names is inside its block. *)
Definition held (s : sys) : Prop :=
  match lock s with
  | None => True
  | Some Writer => writer_inside (writer s) = true
  | Some (Reader i) => exists r, readers s !! i = Some r /\ reader_inside r = true
  end.

End Store.

(** ** What the worker publishes

    What the detector lets through: confidence above the threshold, a
    label of [classes]. *)
Definition raw_ok (o : RawObject) : Prop :=
  fgt (obj_confidence o) confidence_threshold = true /\ In (obj_class o) classes.

Definition published_ok (d : Detection) : Prop :=
  fgt (det_confidence d) confidence_threshold = true /\ In (det_class d) classes.

(** The detection [d] had it been captured at [t]. *)
Definition captured_at (t : string) (d : Detection) : Detection :=
  {| det_class := det_class d;
     det_confidence := det_confidence d;
     det_bbox := det_bbox d;
     det_depth := det_depth d;
     det_timestamp := t |}.

(** ** The filter as the specification words it

    "A Detection passes iff: class filter absent or equal;
    confidence >= minConfidence; maxDepth filter absent or
    depth <= maxDepth." *)
Definition passes_spec (q : QueryArgs) (d : Detection) : bool :=
  match arg_class q with
  | None => true
  | Some c => String.eqb (det_class d) c
  end
  && fge (det_confidence d) (min_confidence_of q)
  && match arg_max_depth q with
     | None => true
     | Some m => fle (det_depth d) m
     end.

(** The filter as the loop applies it: the class filter is also off
    when it is the empty string, and a number passes when the
    program's test [<] (resp. [>]) against the bound is false. *)
Definition passes (q : QueryArgs) (d : Detection) : bool :=
  match arg_class q with
  | None => true
  | Some c => String.eqb c "" || String.eqb (det_class d) c
  end
  && negb (flt (det_confidence d) (min_confidence_of q))
  && match arg_max_depth q with
     | None => true
     | Some m => negb (fgt (det_depth d) m)
     end.

Definition no_filter : QueryArgs :=
  {| arg_class := None; arg_min_confidence := None; arg_max_depth := None |}.

(** ** What [detect_objects] returns, row by row *)

(** The test [confidence > 0.5] on a row. *)
Definition accepted (row : NetRow) : bool :=
  fgt (row_confidence row) confidence_threshold.

(** [int(detections[0, 0, i, 1])] is an index [self.classes] has: the
    class id is a number, and its integer part lies in [-21, 21). *)
Definition valid_class_id (x : float) : bool :=
  match int_of_float x with
  | inr idx => (-21 <=? idx) && (idx <? 21)
  | inl _ => false
  end.

(** The label at index [idx], a negative index counting from the end. *)
Definition label_of (idx : Z) : string :=
  nth (Z.to_nat (idx mod 21)) classes "".

Definition class_index (row : NetRow) : Z :=
  match int_of_float (row_class_id row) with
  | inr idx => idx
  | inl _ => 0
  end.

(** What the worker asks of a turn that it skips: a frame is missing. *)
Definition missed {Image DepthFrame : Type} (c : @Cycle Image DepthFrame) : bool :=
  match frames c with
  | inr (Some _, Some _) => false
  | inr _ => true
  | inl _ => false
  end.

(** A turn on which the depth frame is missing. *)
Definition missed_cycle : @Cycle TestImage TestDepth :=
  {| frames :=
       ret (Some {| im_shape := (480, 640); im_output := raise cv2_error |}, None);
     clock := at_noon |}.

(** The pixel the turn reads the depth at: [center_x, center_y] of
    lines 84-85, in the 64-bit arithmetic of the corners. *)
Definition center_of (bbox : Z * Z * Z * Z) : Z * Z :=
  let '(startX, startY, endX, endY) := bbox in
  (add64 startX endX / 2, add64 startY endY / 2).

(** The sum of the two corners of each axis fits in 64 bits. *)
Definition sums_fit (bbox : Z * Z * Z * Z) : Prop :=
  let '(startX, startY, endX, endY) := bbox in
  - 2 ^ 63 <= startX + endX < 2 ^ 63 /\ - 2 ^ 63 <= startY + endY < 2 ^ 63.

(** The pixel [x, y] lies in the box, on each axis. *)
Definition inside (bbox : Z * Z * Z * Z) (x y : Z) : Prop :=
  let '(startX, startY, endX, endY) := bbox in
  Z.min startX endX <= x <= Z.max startX endX
  /\ Z.min startY endY <= y <= Z.max startY endY.

(** A row that [detect_objects] gets through: rejected, or accepted
    with a class id [self.classes] has. *)
Definition row_ok (row : NetRow) : bool :=
  negb (accepted row) || valid_class_id (row_class_id row).

(** Frames to run the detector on: the one of [chair_cycle], and one
    whose accepted row has class id 21, one past the last label (its
    rejected row has a NaN class id). *)
Definition chair_image : TestImage :=
  {| im_shape := (480, 640);
     im_output :=
       ret [ mkNetRow 9%float 0.7%float
               (0.25%float, 0.25%float, 0.5%float, 0.75%float);
             mkNetRow 15%float 0.3%float
               (0%float, 0%float, 1%float, 1%float) ] |}.

Definition bad_id_rows : list NetRow :=
  [ mkNetRow PrimFloat.nan 0.3%float (0%float, 0%float, 1%float, 1%float);
    mkNetRow 21%float 0.9%float (0%float, 0%float, 1%float, 1%float) ].

Definition bad_id_image : TestImage :=
  {| im_shape := (480, 640); im_output := ret bad_id_rows |}.

Definition chair_object : RawObject :=
  {| obj_class := "chair"; obj_confidence := 0.7%float;
     obj_bbox := (160, 120, 320, 360) |}.

Definition flat_depth : TestDepth := fun x y => ret 1.5%float.

(** ** Sessions: calls, turns, and turns in flight across calls *)

(** [ObjectDetector()] has everything it needs. *)
Definition env_ok (env : Env) : bool :=
  pipeline_starts env && prototxt_exists env && caffemodel_exists env
  && net_loads env.

(** The end of a turn whose body gave [r]: the assignment of lines
    98-99, the [continue] of a missed frame, or the [except] clause.
    The run flag is not read again after the test of line 64. *)
Definition turn_end (r : result (option (list Detection))) (s : API) : API :=
  match r with
  | inr None => s
  | inr (Some detections) => set_current_detections detections s
  | inl _ => set_is_running false s
  end.

(** The instance, and the turns of worker threads that have passed the
    [while] test and not yet ended. *)
Record Session {Image DepthFrame : Type} : Type := mkSession {
  api : API;
  in_flight : list (@Cycle Image DepthFrame)
}.

Arguments Session : clear implicits.

Definition fresh {Image DepthFrame : Type} (s : API) : Session Image DepthFrame :=
  {| api := s; in_flight := [] |}.

Section Lifecycle.

Context {Image DepthFrame : Type}.
Variable shape : Image -> Z * Z.
Variable forward : Image -> result (list NetRow).
Variable astype_int : float -> Z.
Variable get_distance : DepthFrame -> Z -> Z -> result float.

(** What happens to the instance: a [start()] on a machine [env], a
    [stop()], a turn of a worker loop run from its test to its end
    with no call in between, the test of line 64 that opens a turn, or
    the end of the [k]-th turn in flight. *)
Inductive Event : Type :=
  | EStart (env : Env)
  | EStop
  | ETurn (c : @Cycle Image DepthFrame)
  | EBegin (c : @Cycle Image DepthFrame)
  | EEnd (k : nat).

Definition passes_test (s : API) : bool :=
  is_running s && match detector s with Some _ => true | None => false end.

Definition apply_event (e : Event) (s : Session Image DepthFrame)
    : Session Image DepthFrame :=
  match e with
  | EStart env =>
      {| api := state_of (start_detection env (api s)); in_flight := in_flight s |}
  | EStop =>
      {| api := state_of (stop_detection (api s)); in_flight := in_flight s |}
  | ETurn c =>
      {| api := snd (loop_turn shape forward astype_int get_distance c (api s));
         in_flight := in_flight s |}
  | EBegin c =>
      if passes_test (api s)
      then {| api := api s; in_flight := in_flight s ++ [c] |}
      else s
  | EEnd k =>
      match in_flight s !! k with
      | Some c =>
          {| api := turn_end
                      (cycle_detections shape forward astype_int get_distance c)
                      (api s);
             in_flight := delete k (in_flight s) |}
      | None => s
      end
  end.

Definition run_events (es : list Event) (s : Session Image DepthFrame)
    : Session Image DepthFrame :=
  fold_left (fun s e => apply_event e s) es s.

Definition is_start (e : Event) : bool :=
  match e with
  | EStart _ => true
  | _ => false
  end.





End Lifecycle.


(** The distinct elements of a list, each at its first occurrence. *)
Fixpoint first_occurrences (l : list string) : list string :=
  match l with
  | [] => []
  | x :: rest =>
      x :: List.filter (fun y => negb (String.eqb y x)) (first_occurrences rest)
  end.

Definition is_key (m : class_counts_t) (k : string) : bool :=
  existsb (fun k' => String.eqb k' k) (keys m).

(** The arguments [q] without the class filter, without the depth
    filter. *)
Definition drop_class (q : QueryArgs) : QueryArgs :=
  {| arg_class := None;
     arg_min_confidence := arg_min_confidence q;
     arg_max_depth := arg_max_depth q |}.

Definition drop_depth (q : QueryArgs) : QueryArgs :=
  {| arg_class := arg_class q;
     arg_min_confidence := arg_min_confidence q;
     arg_max_depth := None |}.

(** Two detections that differ in their order only, as a snapshot. *)
Definition two_chairs : list Detection :=
  [ mkDetection "chair" 0.7%float (160, 120, 320, 360) 1.5%float
      "2024-01-01T12:00:00";
    mkDetection "person" 0.9%float (0, 0, 100, 200) 2.0%float
      "2024-01-01T12:00:00" ].

Definition two_chairs_swapped : list Detection :=
  [ mkDetection "person" 0.9%float (0, 0, 100, 200) 2.0%float
      "2024-01-01T12:00:00";
    mkDetection "chair" 0.7%float (160, 120, 320, 360) 1.5%float
      "2024-01-01T12:00:00" ].

(** The arguments with a minimum confidence and nothing else. *)
Definition at_least (m : float) : QueryArgs :=
  {| arg_class := None; arg_min_confidence := Some m; arg_max_depth := None |}.

(** [q1] lets through at least what [q2] does as far as depth goes. *)
Definition depth_looser (q1 q2 : QueryArgs) : Prop :=
  match arg_max_depth q1, arg_max_depth q2 with
  | None, _ => True
  | Some b1, Some b2 => fle b2 b1 = true
  | Some _, None => False
  end.

(** ** The [/ollama/prompt] route *)

(** A parsed JSON body, as [request.get_json()] returns it ([JNull]
    for [None]); a dict holds each key once. *)
Unset Elimination Schemes.
Inductive json : Type :=
  | JNull
  | JBool (b : bool)
  | JInt (z : Z)
  | JFloat (f : float)
  | JStr (s : string)
  | JList (l : list json)
  | JDict (d : list (string * json)).
Set Elimination Schemes.

(** [bool(v)] *)
Definition py_truthy (v : json) : bool :=
  match v with
  | JNull => false
  | JBool b => b
  | JInt z => negb (z =? 0)
  | JFloat f => negb (PrimFloat.eqb f PrimFloat.zero)
  | JStr s => negb (String.eqb s "")
  | JList l => match l with [] => false | _ => true end
  | JDict d => match d with [] => false | _ => true end
  end.

(** [sub in s] on strings. *)
Fixpoint contains (sub s : string) : bool :=
  String.prefix sub s
  || match s with
     | EmptyString => false
     | String _ rest => contains sub rest
     end.

Fixpoint dict_lookup (k : string) (d : list (string * json)) : option json :=
  match d with
  | [] => None
  | (k', v) :: rest => if String.eqb k' k then Some v else dict_lookup k rest
  end.

(** [v == k] for a string [k]. *)
Definition is_str (k : string) (v : json) : bool :=
  match v with
  | JStr s => String.eqb s k
  | _ => false
  end.

(** [k in v]: key of a dict, element of a list, substring of a string;
    any other value is not iterable. *)
Definition py_in (k : string) (v : json) : result bool :=
  match v with
  | JDict d => inr (match dict_lookup k d with Some _ => true | None => false end)
  | JList l => inr (existsb (is_str k) l)
  | JStr s => inr (contains k s)
  | _ => inl TypeError
  end.

(** [v[k]] for a string [k]. *)
Definition py_getitem (v : json) (k : string) : result json :=
  match v with
  | JDict d =>
      match dict_lookup k d with
      | Some x => inr x
      | None => inl KeyError
      end
  | _ => inl TypeError
  end.

Record DetectionContext : Type := mkDetectionContext {
  ctx_summary : Summary;
  ctx_detections : list Detection;
  ctx_limitations : string;
  ctx_ollama_capabilities : string
}.

Inductive PromptBody : Type :=
  | MissingPrompt (error_text : string)
  | Enhanced (enhanced_prompt : string) (detection_context : DetectionContext)
      (original_prompt : json).

Definition nl : string := String (Ascii.ascii_of_nat 10) "".

Section Prompt.

(** Outside the repository: numpy's mean, and Python's formatting,
    [format(x, ".2f")] of a float and [str(v)] of a value that is not
    a string. *)
Variable np_mean : list float -> float.
Variable fmt2f : float -> string.
Variable str_of : json -> string.

(** [{prompt}] in an f-string: a string as it is. *)
Definition prompt_text (prompt : json) : string :=
  match prompt with
  | JStr text => text
  | _ => str_of prompt
  end.

Definition context_head (summary : Summary) : string :=
  nl ++ "Current Scene Analysis from RealSense D435 Camera:" ++ nl
  ++ "- Total objects detected: " ++ pretty (total_objects summary) ++ nl
  ++ "- Timestamp: " ++ timestamp summary ++ nl
  ++ "- Camera: Intel RealSense D435 (RGB + Depth sensor)" ++ nl
  ++ "- Detection Model: MobileNet SSD (trained on COCO dataset)" ++ nl
  ++ nl
  ++ "Detected Objects with Depth Information:" ++ nl.

Definition object_line (obj : ClassSummary) : string :=
  "- " ++ cs_class obj ++ ": " ++ pretty (cs_count obj)
  ++ " detected (average depth: " ++ fmt2f (cs_average_depth obj) ++ "m)" ++ nl.

Definition location_line (detection : Detection) : string :=
  "- " ++ det_class detection ++ " at " ++ fmt2f (det_depth detection)
  ++ "m distance (confidence: " ++ fmt2f (det_confidence detection) ++ ")" ++ nl.

(** [context] after the two loops. *)
Definition context_of (summary : Summary) (detections : list Detection) : string :=
  let context := context_head summary in
  let context :=
    fold_left (fun context obj => context ++ object_line obj)
      (objects summary) context in
  match detections with
  | [] => context
  | _ :: _ =>
      let context := context ++ nl ++ "Detailed Object Locations:" ++ nl in
      fold_left (fun context detection => context ++ location_line detection)
        detections context
  end.

Definition enhanced_prompt_of (context prompt : string) : string :=
  nl ++ context ++ nl
  ++ nl
  ++ "IMPORTANT: While the computer vision system can only detect objects from its trained COCO dataset (20 classes), you have much broader knowledge and can:" ++ nl
  ++ nl
  ++ "1. Infer the presence of objects not in the detection list based on context" ++ nl
  ++ "2. Provide detailed descriptions of detected objects" ++ nl
  ++ "3. Analyze the scene as a whole" ++ nl
  ++ "4. Make educated guesses about what might be present" ++ nl
  ++ "5. Answer questions about spatial relationships and scene understanding" ++ nl
  ++ "6. Consider lighting, environment, and contextual clues" ++ nl
  ++ nl
  ++ "User Query: " ++ prompt ++ nl
  ++ nl
  ++ "Please provide an intelligent, contextual response that goes beyond just listing detected objects. Use your knowledge to analyze the scene, infer additional details, and answer the user's question comprehensively." ++ nl.

(** [ollama_prompt] on the parsed body [data]: the status code and the
    body of the answer, or the exception that escapes.  [s] is the
    instance when the route reads the detections, [s'] when it then
    reads the summary (the worker may have published in between). *)
Definition ollama_prompt (data : json) (now : string) (s s' : API)
    : result (Z * PromptBody) :=
  let missing := ret (400, MissingPrompt "Missing prompt in request") in
  if negb (py_truthy data) then missing
  else
    let* found := py_in "prompt" data in
    if negb found then missing
    else
      let* prompt := py_getitem data "prompt" in
      let detections := get_current_detections s in
      let summary := get_detection_summary np_mean now s' in
      let context := context_of summary detections in
      let enhanced_prompt := enhanced_prompt_of context (prompt_text prompt) in
      let* encoded := jsonify_detections detections in
      ret (200,
           Enhanced enhanced_prompt
             {| ctx_summary := summary;
                ctx_detections := detections;
                ctx_limitations := "Computer vision limited to 20 COCO classes";
                ctx_ollama_capabilities :=
                  "Can infer additional objects and provide scene analysis" |}
             prompt).

End Prompt.

(** * Properties *)

(** ** Comparisons of binary64 numbers *)

Lemma compare_cont_Eq_antisym (p q : positive) :
  Pos.compare_cont Eq q p = CompOpp (Pos.compare_cont Eq p q).
Proof. rewrite (Pos.compare_cont_antisym p q Eq). reflexivity. Qed.

Lemma SFcompare_antisym (x y : spec_float) :
  SFcompare y x = option_map CompOpp (SFcompare x y).
Proof.
  destruct x as [sx|sx| |sx mx ex], y as [sy|sy| |sy my ey]; simpl;
    try reflexivity;
    try (destruct sx; reflexivity); try (destruct sy; reflexivity);
    try (destruct sx, sy; reflexivity).
  destruct sx, sy; try reflexivity; f_equal;
    rewrite (Z.compare_antisym ex ey), (compare_cont_Eq_antisym mx my);
    destruct (ex ?= ey)%Z; simpl; try reflexivity;
    destruct (Pos.compare_cont Eq mx my); reflexivity.
Qed.

Lemma SFcompare_None (x y : spec_float) :
  SFcompare x y = None -> x = S754_nan \/ y = S754_nan.
Proof.
  destruct x as [sx|sx| |sx mx ex], y as [sy|sy| |sy my ey]; simpl;
    intros H; try discriminate H; auto.
Qed.

Lemma is_nan_false (a : float) : is_nan a = false -> Prim2SF a <> S754_nan.
Proof.
  unfold is_nan. rewrite FloatAxioms.eqb_spec. intros H E.
  rewrite E in H. discriminate H.
Qed.

(** [a > b] excludes [a < b]. *)
Lemma fgt_not_flt (a b : float) : fgt a b = true -> flt a b = false.
Proof.
  unfold fgt, flt. rewrite !FloatAxioms.ltb_spec. unfold SFltb.
  rewrite (SFcompare_antisym (Prim2SF b) (Prim2SF a)).
  destruct (SFcompare (Prim2SF b) (Prim2SF a)) as [[]|]; simpl; congruence.
Qed.

(** [a >= b] excludes [a < b]. *)
Lemma fge_not_flt (a b : float) : fge a b = true -> flt a b = false.
Proof.
  unfold fge, flt. rewrite FloatAxioms.ltb_spec, FloatAxioms.leb_spec.
  unfold SFltb, SFleb.
  rewrite (SFcompare_antisym (Prim2SF b) (Prim2SF a)).
  destruct (SFcompare (Prim2SF b) (Prim2SF a)) as [[]|]; simpl; congruence.
Qed.

(** On numbers that are not NaN, "not [a < b]" is [a >= b]. *)
Lemma not_flt_fge (a b : float) :
  is_nan a = false -> is_nan b = false -> negb (flt a b) = fge a b.
Proof.
  intros Ha Hb. apply is_nan_false in Ha. apply is_nan_false in Hb.
  unfold fge, flt. rewrite FloatAxioms.ltb_spec, FloatAxioms.leb_spec.
  unfold SFltb, SFleb.
  rewrite (SFcompare_antisym (Prim2SF b) (Prim2SF a)).
  destruct (SFcompare (Prim2SF b) (Prim2SF a)) as [[]|] eqn:E; simpl;
    try reflexivity.
  apply SFcompare_None in E. tauto.
Qed.

(** On numbers that are not NaN, "not [a > b]" is [a <= b]. *)
Lemma not_fgt_fle (a b : float) :
  is_nan a = false -> is_nan b = false -> negb (fgt a b) = fle a b.
Proof. intros Ha Hb. apply (not_flt_fge b a Hb Ha). Qed.

(** ** [query_objects] *)

Lemma query_keeps_passes (q : QueryArgs) (d : Detection) :
  query_keeps (arg_class q) (min_confidence_of q) (arg_max_depth q) d
  = passes q d.
Proof.
  unfold query_keeps, passes, truthy_str, str_ne.
  destruct (arg_class q) as [c|]; simpl.
  - destruct (String.eqb c ""), (String.eqb (det_class d) c),
      (flt (det_confidence d) (min_confidence_of q)); simpl; try reflexivity;
      destruct (arg_max_depth q) as [m|]; try reflexivity;
      destruct (fgt (det_depth d) m); reflexivity.
  - destruct (flt (det_confidence d) (min_confidence_of q)); simpl;
      try reflexivity;
      destruct (arg_max_depth q) as [m|]; try reflexivity;
      destruct (fgt (det_depth d) m); reflexivity.
Qed.

Lemma query_loop_filter (q : QueryArgs) (detections filtered : list Detection) :
  query_loop (arg_class q) (min_confidence_of q) (arg_max_depth q)
    detections filtered
  = (filtered ++ List.filter (passes q) detections)%list.
Proof.
  revert filtered. induction detections as [|d rest IH]; intros filtered; simpl.
  - symmetry. apply app_nil_r.
  - rewrite query_keeps_passes. destruct (passes q d).
    + rewrite IH, <- app_assoc. reflexivity.
    + apply IH.
Qed.

Lemma filtered_of_filter (q : QueryArgs) (S : list Detection) :
  filtered_of q S = List.filter (passes q) S.
Proof. unfold filtered_of. apply query_loop_filter. Qed.

(** The route answers when [filtered] is empty, and whenever it answers
    it returns [filtered] and its length. *)
Lemma query_objects_answer (q : QueryArgs) (S : list Detection) :
  query_objects q S
  = match filtered_of q S with
    | [] => inr {| qr_query := {| echo_class := arg_class q;
                                  echo_min_confidence := min_confidence_of q;
                                  echo_max_depth := arg_max_depth q |};
                   qr_results := [];
                   qr_count := 0 |}
    | _ :: _ => inl TypeError
    end.
Proof.
  unfold query_objects, filtered_of.
  destruct (query_loop _ _ _ S []); reflexivity.
Qed.

Lemma filter_sublist {A} (f : A -> bool) (l : list A) :
  sublist (List.filter f l) l.
Proof.
  induction l as [|a l IH]; simpl.
  - constructor.
  - destruct (f a); [apply sublist_skip | apply sublist_cons]; exact IH.
Qed.

Lemma filter_all {A} (f : A -> bool) (l : list A) :
  (forall a, In a l -> f a = true) -> List.filter f l = l.
Proof.
  induction l as [|a l IH]; simpl; intros H; [reflexivity|].
  rewrite (H a (or_introl eq_refl)). f_equal. apply IH.
  intros b Hb. apply H. right. exact Hb.
Qed.

Lemma filter_none {A} (f : A -> bool) (l : list A) :
  (forall a, In a l -> f a = false) -> List.filter f l = [].
Proof.
  induction l as [|a l IH]; simpl; intros H; [reflexivity|].
  rewrite (H a (or_introl eq_refl)). apply IH.
  intros b Hb. apply H. right. exact Hb.
Qed.

(** C2, as stated, fails, on the snapshot the worker publishes after a
    turn that saw a chair: with the class filter present but empty
    ([/query?class=]) the loop keeps the chair although the filter is
    neither absent nor equal to its class, and with a NaN bound
    ([/query?min_confidence=nan]) it keeps it although its confidence
    is not [>=] the bound; in both cases no detection passes the
    filter as stated, and the route does not answer the empty list. *)
Lemma query_objects_spec_filter_fails :
  let S := current_detections running_api in
  let empty_class :=
    {| arg_class := Some ""; arg_min_confidence := None; arg_max_depth := None |} in
  let nan_bound :=
    {| arg_class := None; arg_min_confidence := Some PrimFloat.nan;
       arg_max_depth := None |} in
  (filtered_of empty_class S = S
   /\ List.filter (passes_spec empty_class) S = []
   /\ query_objects empty_class S = inl TypeError)
  /\ (filtered_of nan_bound S = S
      /\ List.filter (passes_spec nan_bound) S = []
      /\ query_objects nan_bound S = inl TypeError)
  /\ S <> [].
Proof. vm_compute. repeat split; try reflexivity. discriminate. Qed.

(** C2 (amended): the list [filtered] that the query computes holds
    the detections of [S] that pass, in the order of [S]; a detection
    passes iff the class filter is absent, empty or equal to its
    class, AND its confidence is not below minConfidence (default
    0.5), AND the maxDepth filter is absent or its depth is not above
    maxDepth; when no number involved is NaN and the class filter is
    not the empty string this is the specification's filter
    (confidence >= minConfidence, depth <= maxDepth); with no filters
    the list is [S] whenever every confidence is at least 0.5; when
    nothing passes the route answers the empty list with count 0, not
    an error; and whenever the route answers, its results are that
    list and its count the length of it. *)
Theorem query_objects_filter (S : list Detection) (q : QueryArgs) :
  let R := filtered_of q S in
  R = List.filter (passes q) S
  /\ sublist R S
  /\ (forall d, In d R <-> In d S /\ passes q d = true)
  /\ (forall d,
        arg_class q <> Some "" ->
        is_nan (det_confidence d) = false ->
        is_nan (min_confidence_of q) = false ->
        is_nan (det_depth d) = false ->
        (forall m, arg_max_depth q = Some m -> is_nan m = false) ->
        passes q d = passes_spec q d)
  /\ ((forall d, In d S -> fge (det_confidence d) default_min_confidence = true) ->
      filtered_of no_filter S = S)
  /\ ((forall d, In d S -> passes q d = false) ->
      query_objects q S
      = inr {| qr_query := {| echo_class := arg_class q;
                              echo_min_confidence := min_confidence_of q;
                              echo_max_depth := arg_max_depth q |};
               qr_results := [];
               qr_count := 0 |})
  /\ (forall r, query_objects q S = inr r ->
                qr_results r = R /\ qr_count r = length R).
Proof.
  cbv zeta. rewrite filtered_of_filter.
  split; [reflexivity|].
  split; [apply filter_sublist|].
  split; [intros d; apply filter_In|].
  split.
  { intros d Hc Hn1 Hn2 Hn3 Hn4. unfold passes, passes_spec.
    rewrite (not_flt_fge _ _ Hn1 Hn2).
    f_equal; [f_equal|].
    - destruct (arg_class q) as [c|]; [|reflexivity].
      destruct (String.eqb_spec c "") as [->|_]; [congruence|reflexivity].
    - destruct (arg_max_depth q) as [m|]; [|reflexivity].
      apply not_fgt_fle; [exact Hn3 | apply Hn4; reflexivity]. }
  split.
  { intros H. rewrite filtered_of_filter. apply filter_all.
    intros d Hd. unfold passes, no_filter, min_confidence_of; simpl.
    rewrite (fge_not_flt _ _ (H d Hd)). reflexivity. }
  split.
  { intros H. rewrite query_objects_answer, filtered_of_filter,
      (filter_none _ _ H). reflexivity. }
  intros r. rewrite query_objects_answer, filtered_of_filter.
  destruct (List.filter (passes q) S); [|discriminate].
  intros [= <-]. split; reflexivity.
Qed.

(** ** [get_detection_summary] *)

Section Dict.

Implicit Types (m : class_counts_t) (k c : string) (v n : nat).

Lemma dict_get_set_eq k v m : dict_get k (dict_set k v m) = Some v.
Proof.
  induction m as [|[k' v'] m IH]; simpl.
  - rewrite String.eqb_refl. reflexivity.
  - destruct (String.eqb k' k) eqn:E; simpl; rewrite E; [reflexivity | exact IH].
Qed.

Lemma dict_get_set_ne k c v m :
  k <> c -> dict_get c (dict_set k v m) = dict_get c m.
Proof.
  intros Hne. induction m as [|[k' v'] m IH]; simpl.
  - destruct (String.eqb_spec k c); [contradiction | reflexivity].
  - destruct (String.eqb_spec k' k) as [->|Hk]; simpl.
    + destruct (String.eqb_spec k c); [contradiction | reflexivity].
    + destruct (String.eqb k' c); [reflexivity | exact IH].
Qed.

Lemma dict_get_None_keys k m : dict_get k m = None -> ~ In k (keys m).
Proof.
  induction m as [|[k' v'] m IH]; simpl; [tauto|].
  destruct (String.eqb_spec k' k) as [->|Hk]; [discriminate|].
  intros H [E|Hin]; [contradiction | exact (IH H Hin)].
Qed.

Lemma dict_get_Some_In k n m : dict_get k m = Some n -> In (k, n) m.
Proof.
  induction m as [|[k' v'] m IH]; simpl; [discriminate|].
  destruct (String.eqb_spec k' k) as [->|Hk].
  - intros [= ->]. left. reflexivity.
  - intros H. right. exact (IH H).
Qed.

Lemma keys_dict_set k v m :
  keys (dict_set k v m)
  = match dict_get k m with
    | Some _ => keys m
    | None => (keys m ++ [k])%list
    end.
Proof.
  induction m as [|[k' v'] m IH]; simpl; [reflexivity|].
  destruct (String.eqb k' k); simpl; [reflexivity|].
  rewrite IH. destruct (dict_get k m); reflexivity.
Qed.

Lemma sum_counts_dict_set k v m :
  (sum_counts (dict_set k v m) + default 0 (dict_get k m)
   = sum_counts m + v)%nat.
Proof.
  induction m as [|[k' v'] m IH]; simpl; [lia|].
  destruct (String.eqb k' k); simpl; lia.
Qed.

(** With distinct keys, the entries of key [c] are the one
    [dict_get] finds. *)
Lemma filter_key_NoDup c m :
  NoDup (keys m) ->
  List.filter (fun p => String.eqb (fst p) c) m
  = match dict_get c m with
    | Some n => [(c, n)]
    | None => []
    end.
Proof.
  induction m as [|[k' v'] m IH]; simpl; [reflexivity|].
  intros Hnd. apply NoDup_cons in Hnd as [Hnotin Hnd].
  destruct (String.eqb_spec k' c) as [->|Hk].
  - f_equal. rewrite (IH Hnd).
    destruct (dict_get c m) as [n|] eqn:E; [|reflexivity].
    exfalso. apply Hnotin. apply list_elem_of_In.
    apply dict_get_Some_In in E.
    apply (in_map fst) in E. exact E.
  - apply IH. exact Hnd.
Qed.

End Dict.

Lemma count_step_get (c : string) (m : class_counts_t) (d : Detection) :
  dict_get c (count_step m d)
  = if String.eqb (det_class d) c
    then Some (default 0 (dict_get c m) + 1)%nat
    else dict_get c m.
Proof.
  unfold count_step.
  destruct (String.eqb_spec (det_class d) c) as [<-|Hne].
  - destruct (dict_get (det_class d) m) as [n|] eqn:E.
    + rewrite E. apply dict_get_set_eq.
    + rewrite dict_get_set_eq. rewrite dict_get_set_eq. reflexivity.
  - destruct (dict_get (det_class d) m) as [n|] eqn:E.
    + rewrite E. apply dict_get_set_ne. exact Hne.
    + rewrite dict_get_set_eq. rewrite !dict_get_set_ne by exact Hne.
      reflexivity.
Qed.

Lemma count_step_sum (m : class_counts_t) (d : Detection) :
  sum_counts (count_step m d) = (sum_counts m + 1)%nat.
Proof.
  unfold count_step.
  destruct (dict_get (det_class d) m) as [n|] eqn:E.
  - rewrite E.
    pose proof (sum_counts_dict_set (det_class d) (n + 1) m) as H.
    rewrite E in H. change (default 0%nat (Some n)) with n in H. lia.
  - rewrite dict_get_set_eq.
    pose proof (sum_counts_dict_set (det_class d) 0 m) as H0.
    pose proof (sum_counts_dict_set (det_class d) (0 + 1)
                  (dict_set (det_class d) 0 m)) as H1.
    rewrite E in H0. rewrite dict_get_set_eq in H1.
    change (default 0%nat None) with 0%nat in H0.
    change (default 0%nat (Some 0%nat)) with 0%nat in H1. lia.
Qed.

Lemma count_step_NoDup (m : class_counts_t) (d : Detection) :
  NoDup (keys m) -> NoDup (keys (count_step m d)).
Proof.
  intros Hnd. unfold count_step.
  destruct (dict_get (det_class d) m) as [n|] eqn:E.
  - rewrite E, keys_dict_set, E. exact Hnd.
  - rewrite dict_get_set_eq, keys_dict_set, dict_get_set_eq, keys_dict_set, E.
    apply NoDup_app. split; [exact Hnd|]. split.
    + intros x Hx Hx'. apply list_elem_of_In in Hx.
      apply list_elem_of_In in Hx'. destruct Hx' as [<-|[]].
      exact (dict_get_None_keys _ _ E Hx).
    + apply NoDup_singleton.
Qed.

Lemma count_of_cons (c : string) (d : Detection) (l : list Detection) :
  count_of c (d :: l)
  = ((if String.eqb (det_class d) c then 1 else 0) + count_of c l)%nat.
Proof.
  unfold count_of; simpl. destruct (String.eqb (det_class d) c); reflexivity.
Qed.

Lemma fold_count_get (c : string) (l : list Detection) (m : class_counts_t) :
  dict_get c (fold_left count_step l m)
  = if (count_of c l =? 0)%nat then dict_get c m
    else Some (default 0 (dict_get c m) + count_of c l)%nat.
Proof.
  revert m. induction l as [|d l IH]; intros m; [reflexivity|].
  simpl fold_left. rewrite IH, count_step_get, count_of_cons.
  destruct (String.eqb (det_class d) c); simpl.
  - destruct (count_of c l); simpl; f_equal; lia.
  - reflexivity.
Qed.

Lemma fold_count_sum (l : list Detection) (m : class_counts_t) :
  sum_counts (fold_left count_step l m) = (sum_counts m + length l)%nat.
Proof.
  revert m. induction l as [|d l IH]; intros m; simpl; [lia|].
  rewrite IH, count_step_sum. lia.
Qed.

Lemma fold_count_NoDup (l : list Detection) (m : class_counts_t) :
  NoDup (keys m) -> NoDup (keys (fold_left count_step l m)).
Proof.
  revert m. induction l as [|d l IH]; intros m H; simpl; [exact H|].
  apply IH, count_step_NoDup, H.
Qed.

(** [class_counts] after the loop: one entry per class that occurs,
    holding the number of its detections. *)
Lemma count_classes_get (c : string) (S : list Detection) :
  dict_get c (count_classes S)
  = if (count_of c S =? 0)%nat then None else Some (count_of c S).
Proof. unfold count_classes. rewrite fold_count_get. reflexivity. Qed.

Lemma count_classes_sum (S : list Detection) :
  sum_counts (count_classes S) = length S.
Proof. unfold count_classes. rewrite fold_count_sum. reflexivity. Qed.

Lemma count_classes_NoDup (S : list Detection) : NoDup (keys (count_classes S)).
Proof. apply fold_count_NoDup. constructor. Qed.

Lemma summary_objects (np_mean : list float -> float) (now : string)
    (S : list Detection) :
  objects (summary_of np_mean now S) = map (entry_of np_mean S) (count_classes S).
Proof. destruct S; reflexivity. Qed.

Lemma sum_entry_counts (np_mean : list float -> float) (S : list Detection)
    (m : class_counts_t) :
  fold_right Nat.add 0%nat (map cs_count (map (entry_of np_mean S) m)) = sum_counts m.
Proof.
  induction m as [|[k v] m IH]; simpl; [reflexivity|]. rewrite IH. reflexivity.
Qed.

Lemma filter_entries (np_mean : list float -> float) (c : string)
    (S : list Detection) (m : class_counts_t) :
  List.filter (fun e => String.eqb (cs_class e) c) (map (entry_of np_mean S) m)
  = map (entry_of np_mean S) (List.filter (fun p => String.eqb (fst p) c) m).
Proof.
  induction m as [|[k v] m IH]; simpl; [reflexivity|].
  destruct (String.eqb k c); simpl; rewrite IH; reflexivity.
Qed.

(** C3: for every snapshot [S] held by the instance, the summary has
    [total_objects] equal to the length of [S], the per-class counts
    add up to the length of [S], and on the empty snapshot the summary
    is [total_objects = 0] with an empty list of classes, a value and
    not an error. *)
Theorem summary_totals (np_mean : list float -> float) (now : string) (s : API) :
  let S := get_current_detections s in
  let summary := get_detection_summary np_mean now s in
  total_objects summary = length S
  /\ fold_right Nat.add 0%nat (map cs_count (objects summary)) = length S
  /\ (S = [] -> summary = {| total_objects := 0; objects := []; timestamp := now |}).
Proof.
  cbv zeta. unfold get_detection_summary.
  generalize (get_current_detections s) as S. intros S.
  split; [destruct S; reflexivity|].
  split.
  - rewrite summary_objects, sum_entry_counts. apply count_classes_sum.
  - intros ->. reflexivity.
Qed.



(** ** The lifecycle: [start_detection], [stop_detection] *)



(** Missing model files make the constructor raise. *)
Lemma missing_model_raises (env : Env) :
  prototxt_exists env = false \/ caffemodel_exists env = false ->
  exists e, ObjectDetector_init env = inl e.
Proof.
  intros H. unfold ObjectDetector_init, load_model.
  destruct (pipeline_starts env); [|eexists; reflexivity].
  destruct H as [-> | ->]; simpl;
    [|rewrite orb_true_r]; eexists; reflexivity.
Qed.

(** C7: when the detector cannot be constructed, [start()] on a
    stopped instance without detector answers [error]; the instance is
    unchanged (run flag cleared, no detector, no thread handle), no
    thread is started, and [/health] still reports that detection is
    not running.  Missing model files are such a case. *)
Theorem start_detection_error (env : Env) (s : API) (e : exn)
    (Hstopped : is_running s = false)
    (Hnone : detector s = None)
    (Hfail : ObjectDetector_init env = inl e) :
  start_detection env s = (error, s, [])
  /\ is_running (state_of (start_detection env s)) = false
  /\ (forall now, detection_running (health now (state_of (start_detection env s)))
                  = false).
Proof.
  assert (H : start_detection env s = (error, s, [])).
  { unfold start_detection, initialize_detector.
    rewrite Hstopped, Hnone, Hfail. reflexivity. }
  rewrite H. unfold state_of; simpl.
  split; [reflexivity|]. split; [exact Hstopped|]. intros now. exact Hstopped.
Qed.

Lemma start_detection_error_witness :
  ObjectDetector_init no_model_env = inl FileNotFoundError
  /\ start_detection no_model_env API_init = (error, API_init, []).
Proof.
  split; [reflexivity|].
  apply (start_detection_error no_model_env API_init FileNotFoundError);
    reflexivity.
Defined.

(** C9: [stop()] always answers [stopped]; on an instance whose run
    flag is already cleared it changes nothing, and a second [stop()]
    leaves the instance as the first one left it. *)
Theorem stop_detection_idempotent (s : API) :
  let s1 := state_of (stop_detection s) in
  response_of (stop_detection s) = stopped
  /\ response_of (stop_detection s1) = stopped
  /\ state_of (stop_detection s1) = s1
  /\ is_running s1 = false
  /\ (is_running s = false -> s1 = s).
Proof.
  cbv zeta. unfold stop_detection, response_of, state_of; simpl.
  repeat split.
  intros H. destruct s as [d r c t]; simpl in *. rewrite H. reflexivity.
Qed.

(** ** The worker loop *)

Lemma py_index_In {A} (l : list A) (idx : Z) (a : A) :
  py_index l idx = inr a -> In a l.
Proof.
  unfold py_index.
  destruct (_ || _); [discriminate|].
  destruct (nth_error l _) eqn:E; [|discriminate].
  intros [= <-]. exact (nth_error_In _ _ E).
Qed.

Section WorkerProperties.

Context {Image DepthFrame : Type}.
Variable shape : Image -> Z * Z.
Variable forward : Image -> result (list NetRow).
Variable astype_int : float -> Z.
Variable get_distance : DepthFrame -> Z -> Z -> result float.

Abbreviation cycle_detections' := (cycle_detections shape forward astype_int get_distance).
Abbreviation loop_turn' := (loop_turn shape forward astype_int get_distance).
Abbreviation detection_loop' := (detection_loop shape forward astype_int get_distance).

Lemma detect_loop_ok (h w : Z) (rows : list NetRow) (objects out : list RawObject) :
  Forall raw_ok objects ->
  detect_loop astype_int h w rows objects = inr out ->
  Forall raw_ok out.
Proof.
  revert objects. induction rows as [|row rows IH]; intros objects Hok; simpl.
  - intros [= <-]. exact Hok.
  - destruct (fgt (row_confidence row) confidence_threshold) eqn:Hc; [|apply IH, Hok].
    destruct (int_of_float (row_class_id row)) as [e|idx]; simpl; [discriminate|].
    destruct (py_index classes idx) as [e|cls] eqn:Hi; simpl; [discriminate|].
    apply IH. apply Forall_app. split; [exact Hok|].
    constructor; [|constructor].
    split; simpl; [exact Hc | exact (py_index_In _ _ _ Hi)].
Qed.

Lemma detect_objects_ok (frame : Image) (out : list RawObject) :
  detect_objects shape forward astype_int frame = inr out -> Forall raw_ok out.
Proof.
  unfold detect_objects. destruct (forward frame) as [e|rows]; simpl; [discriminate|].
  destruct (shape frame) as [h w]. apply detect_loop_ok. constructor.
Qed.

Lemma enrich_ok (depth_frame : DepthFrame) (clock : nat -> string)
    (objects : list RawObject) (detections out : list Detection) :
  Forall raw_ok objects ->
  Forall published_ok detections ->
  enrich get_distance depth_frame clock objects detections = inr out ->
  Forall published_ok out.
Proof.
  revert detections. induction objects as [|o objects IH]; intros detections Ho Hd; simpl.
  - intros [= <-]. exact Hd.
  - destruct (obj_bbox o) as [[[startX startY] endX] endY].
    destruct (get_depth_at_point _ _ _ _) as [e|depth]; simpl; [discriminate|].
    apply Forall_cons in Ho as [Ho1 Ho].
    apply IH; [exact Ho|]. apply Forall_app. split; [exact Hd|].
    constructor; [exact Ho1 | constructor].
Qed.

Lemma cycle_detections_ok (c : Cycle) (S : list Detection) :
  cycle_detections' c = inr (Some S) -> Forall published_ok S.
Proof.
  unfold cycle_detections. destruct (frames c) as [e|[[color|] [depth|]]]; simpl;
    try discriminate.
  destruct (detect_objects _ _ _ color) as [e|objects] eqn:Hd; simpl; [discriminate|].
  destruct (enrich _ _ _ objects []) as [e|detections] eqn:He; simpl; [discriminate|].
  intros [= <-].
  apply (enrich_ok _ _ _ _ _ (detect_objects_ok _ _ Hd) (List.Forall_nil _) He).
Qed.

(** A turn leaves the snapshot alone or installs the list it computed. *)
Lemma loop_turn_store (c : Cycle) (s : API) :
  current_detections (snd (loop_turn' c s)) = current_detections s
  \/ cycle_detections' c = inr (Some (current_detections (snd (loop_turn' c s)))).
Proof.
  unfold loop_turn. destruct (is_running s); simpl; [|left; reflexivity].
  destruct (detector s); [|left; reflexivity].
  destruct (cycle_detections' c) as [e|[S|]]; simpl; auto.
Qed.

Lemma detection_loop_app (cs cs' : list Cycle) (s : API) :
  detection_loop' (cs ++ cs') s
  = match detection_loop' cs s with
    | (Looping, s1) => detection_loop' cs' s1
    | (Returned, s1) => (Returned, s1)
    end.
Proof.
  revert s. induction cs as [|c cs IH]; intros s; simpl.
  - reflexivity.
  - destruct (loop_turn' c s) as [[] s1]; [apply IH | reflexivity].
Qed.

Lemma detection_loop_ok (cs : list Cycle) (s : API) :
  Forall published_ok (current_detections s) ->
  Forall published_ok (current_detections (snd (detection_loop' cs s))).
Proof.
  revert s. induction cs as [|c cs IH]; intros s Hs; simpl; [exact Hs|].
  assert (H1 : Forall published_ok (current_detections (snd (loop_turn' c s)))).
  { destruct (loop_turn_store c s) as [-> | E]; [exact Hs|].
    exact (cycle_detections_ok _ _ E). }
  destruct (loop_turn' c s) as [[] s1]; simpl in *; [apply IH, H1 | exact H1].
Qed.

End WorkerProperties.

Section WorkerClaims.

Context {Image DepthFrame : Type}.
Variable shape : Image -> Z * Z.
Variable forward : Image -> result (list NetRow).
Variable astype_int : float -> Z.
Variable get_distance : DepthFrame -> Z -> Z -> result float.

(** C5 (amended): when an exception escapes frame acquisition or
    inference in a turn of the worker loop, the loop returns without
    running any later turn (no retry), the run flag is cleared, and the
    store keeps the snapshot of the last turn that completed; the
    instance is then exactly what [stop()] would have left, so
    [/health] reports it as it reports a stopped worker (there is no
    separate failed state); a fresh [start()] answers [started], sets
    the flag and starts a new loop. *)
Theorem worker_failure (cs rest : list Cycle) (c : Cycle) (s s1 : API)
    (e : exn) (env : Env)
    (Hrun : detection_loop shape forward astype_int get_distance cs s = (Looping, s1))
    (His : is_running s1 = true)
    (Hdet : detector s1 <> None)
    (Hexn : cycle_detections shape forward astype_int get_distance c = inl e) :
  let failed := set_is_running false s1 in
  detection_loop shape forward astype_int get_distance (cs ++ c :: rest) s
  = (Returned, failed)
  /\ current_detections failed = current_detections s1
  /\ is_running failed = false
  /\ failed = state_of (stop_detection s1)
  /\ (forall now, health now failed = health now (state_of (stop_detection s1)))
  /\ response_of (start_detection env failed) = started
  /\ is_running (state_of (start_detection env failed)) = true
  /\ effects_of (start_detection env failed) = [ThreadStart {| daemon := true |}].
Proof.
  cbv zeta.
  split.
  { rewrite detection_loop_app, Hrun. simpl. unfold loop_turn.
    rewrite His, Hexn. simpl. destruct (detector s1); [reflexivity | contradiction]. }
  split; [reflexivity|]. split; [reflexivity|]. split; [reflexivity|].
  split; [reflexivity|].
  unfold start_detection, response_of, state_of, effects_of; simpl.
  destruct (detector s1); [|contradiction]. simpl. repeat split.
Qed.

(** C10: the snapshots of the worker hold only detections of
    confidence above 0.5 with a label of the 21-entry list [classes],
    and the filter of the query with no parameter (minimum confidence
    0.5) keeps such a snapshot whole; the route nevertheless returns
    it only when it is empty: on a snapshot with a detection
    [jsonify] raises [TypeError], the [bbox] being a tuple of
    [numpy.int64]. *)
Theorem published_confident (cs : list Cycle) (s : API)
    (Hstart : Forall published_ok (current_detections s)) :
  let S := current_detections
             (snd (detection_loop shape forward astype_int get_distance cs s)) in
  (forall d, In d S ->
             fgt (det_confidence d) 0.5%float = true /\ In (det_class d) classes)
  /\ length classes = 21%nat
  /\ (forall c S', cycle_detections shape forward astype_int get_distance c
                   = inr (Some S') ->
                   Forall published_ok S')
  /\ filtered_of no_filter S = S
  /\ (S <> [] -> query_objects no_filter S = inl TypeError)
  /\ (forall r, query_objects no_filter S = inr r -> S = [] /\ qr_results r = []).
Proof.
  cbv zeta.
  pose proof (detection_loop_ok shape forward astype_int get_distance cs s Hstart)
    as Hok.
  revert Hok.
  generalize (current_detections
                (snd (detection_loop shape forward astype_int get_distance cs s))).
  intros S Hok.
  assert (Hall : filtered_of no_filter S = S).
  { rewrite filtered_of_filter. apply filter_all. intros d Hd.
    rewrite List.Forall_forall in Hok. destruct (Hok d Hd) as [Hc _].
    unfold passes, no_filter, min_confidence_of; simpl.
    change default_min_confidence with confidence_threshold.
    rewrite (fgt_not_flt _ _ Hc). reflexivity. }
  split.
  { intros d Hd. rewrite List.Forall_forall in Hok. exact (Hok d Hd). }
  split; [reflexivity|].
  split; [apply cycle_detections_ok|].
  split; [exact Hall|].
  rewrite query_objects_answer, Hall.
  split.
  - intros Hne. destruct S; [contradiction | reflexivity].
  - intros r. destruct S; [|discriminate]. intros [= <-]. split; reflexivity.
Qed.

End WorkerClaims.

Lemma worker_failure_witness :
  test_loop ([chair_cycle] ++ failing_cycle :: [chair_cycle])
    (state_of (start_detection good_env API_init))
  = (Returned, set_is_running false running_api)
  /\ current_detections (set_is_running false running_api)
     = current_detections running_api.
Proof.
  pose proof (worker_failure im_shape im_output trunc_cast test_distance
                [chair_cycle] [chair_cycle] failing_cycle
                (state_of (start_detection good_env API_init)) running_api
                cv2_error good_env) as H.
  cbv zeta in H.
  destruct H as (H1 & H2 & _).
  - reflexivity.
  - reflexivity.
  - discriminate.
  - reflexivity.
  - split; [exact H1 | exact H2].
Defined.

Lemma published_confident_witness :
  Forall published_ok (current_detections (state_of (start_detection good_env API_init)))
  /\ filtered_of no_filter (current_detections running_api)
     = current_detections running_api
  /\ query_objects no_filter (current_detections running_api) = inl TypeError.
Proof.
  assert (H0 : Forall published_ok
                 (current_detections (state_of (start_detection good_env API_init)))).
  { constructor. }
  pose proof (published_confident im_shape im_output trunc_cast test_distance
                [chair_cycle] (state_of (start_detection good_env API_init)) H0) as H.
  cbv zeta in H. destruct H as (_ & _ & _ & H4 & H5 & _).
  split; [exact H0|]. split; [exact H4|].
  apply H5. discriminate.
Defined.

(** C5, as stated, fails: after a turn on which inference raises, the
    instance is the one [stop()] leaves, and [/health] answers the same
    on both: the failure cannot be told from a stop. *)
Lemma failed_worker_reads_as_stopped :
  let failed := snd (test_loop [failing_cycle] running_api) in
  let stopped_api := state_of (stop_detection running_api) in
  fst (test_loop [failing_cycle] running_api) = Returned
  /\ failed = stopped_api
  /\ health "2024-01-01T12:05:00" failed = health "2024-01-01T12:05:00" stopped_api.
Proof. vm_compute. repeat split. Qed.

(** ** The timestamp of the summary *)

Lemma count_step_captured_at (t : string) (m : class_counts_t) (d : Detection) :
  count_step m (captured_at t d) = count_step m d.
Proof. reflexivity. Qed.

Lemma count_classes_captured_at (t : string) (S : list Detection) :
  count_classes (map (captured_at t) S) = count_classes S.
Proof.
  unfold count_classes. generalize (@nil (string * nat)) as m.
  induction S as [|d S IH]; intros m; simpl; [reflexivity|].
  rewrite count_step_captured_at. apply IH.
Qed.

Lemma depths_of_captured_at (t c : string) (S : list Detection) :
  depths_of c (map (captured_at t) S) = depths_of c S.
Proof.
  unfold depths_of. induction S as [|d S IH]; simpl; [reflexivity|].
  destruct (String.eqb (det_class d) c); simpl; rewrite IH; reflexivity.
Qed.

Lemma summary_of_captured_at (np_mean : list float -> float) (now t : string)
    (S : list Detection) :
  summary_of np_mean now (map (captured_at t) S) = summary_of np_mean now S.
Proof.
  destruct S as [|d S]; [reflexivity|].
  unfold summary_of. cbn [map]. f_equal.
  - simpl. rewrite length_map. reflexivity.
  - change (captured_at t d :: map (captured_at t) S)
      with (map (captured_at t) (d :: S)).
    rewrite count_classes_captured_at.
    apply map_ext. intros [k v]. unfold entry_of.
    rewrite depths_of_captured_at. reflexivity.
Qed.

(** C8, as stated, fails: on a store whose snapshot was captured at
    12:00:00 and that has stopped advancing (the worker failed), the
    summary requested at 12:05:00 is stamped 12:05:00 and the one
    requested at 12:10:00 is stamped 12:10:00: the stamp is the time of
    the request, never the capture instant, and it does not go stale. *)
Lemma summary_timestamp_is_request_time :
  let s := snd (test_loop [failing_cycle] running_api) in
  map det_timestamp (get_current_detections s) = ["2024-01-01T12:00:00"]
  /\ timestamp (get_detection_summary left_mean "2024-01-01T12:05:00" s)
     = "2024-01-01T12:05:00"
  /\ timestamp (get_detection_summary left_mean "2024-01-01T12:10:00" s)
     = "2024-01-01T12:10:00"
  /\ timestamp (get_detection_summary left_mean "2024-01-01T12:05:00" s)
     <> "2024-01-01T12:00:00".
Proof. vm_compute. repeat split. discriminate. Qed.

(** C8 (amended): the Summary carries the time of the request (the
    clock read when it is built), not the capture instant of the
    snapshot: it is the same whatever the capture instants of the
    detections are; it is computed from the current snapshot and the
    clock alone on every request, nothing being kept from an earlier
    request, so two requests on an unchanged store differ in their
    timestamp only, and a request after a replacement sees the new
    snapshot. *)
Theorem summary_timestamp (np_mean : list float -> float) (now : string) (s : API) :
  timestamp (get_detection_summary np_mean now s) = now
  /\ get_detection_summary np_mean now s
     = summary_of np_mean now (current_detections s)
  /\ (forall t,
        get_detection_summary np_mean now
          (set_current_detections (map (captured_at t) (current_detections s)) s)
        = get_detection_summary np_mean now s)
  /\ (forall now',
        total_objects (get_detection_summary np_mean now' s)
        = total_objects (get_detection_summary np_mean now s)
        /\ objects (get_detection_summary np_mean now' s)
           = objects (get_detection_summary np_mean now s)
        /\ timestamp (get_detection_summary np_mean now' s) = now')
  /\ (forall L, get_detection_summary np_mean now (set_current_detections L s)
                = summary_of np_mean now L).
Proof.
  unfold get_detection_summary, get_current_detections.
  split; [destruct (current_detections s); reflexivity|].
  split; [reflexivity|].
  split; [intros t; simpl; apply summary_of_captured_at|].
  split; [|reflexivity].
  intros now'. destruct (current_detections s); repeat split.
Qed.

(** ** The snapshot store under concurrency *)

Import Store.

Lemma inv_init (prev : list Detection) (news : list (list Detection)) (n : nat) :
  inv prev news (init prev news n).
Proof.
  unfold inv, init; simpl. split; [left; reflexivity|].
  split; [split; [discriminate | apply incl_refl]|].
  intros i r Hr. apply lookup_replicate in Hr as [-> _]. exact I.
Qed.

(** While no reader holds the lock, every reader is outside its
    critical section. *)
Lemma reader_ok_relock (lk lk' : option tid) (st st' : list Detection)
    (hist : list (list Detection)) (i : nat) (r : rstate) :
  lk <> Some (Reader i) ->
  reader_ok lk st hist i r -> reader_ok lk' st' hist i r.
Proof.
  intros Hlk. destruct r; simpl; auto; intros [H _]; contradiction.
Qed.

Lemma writer_step_inv (prev : list Detection) (news : list (list Detection))
    (s s' : sys) :
  inv prev news s -> writer_step s = Some s' -> inv prev news s'.
Proof.
  intros (Hst & Hw & Hr). unfold writer_step.
  destruct (writer s) as [[|l pending]|l pending|pending] eqn:Ew; simpl in Hw.
  - discriminate.
  - destruct (lock s) eqn:El; [discriminate|]. intros [= <-].
    destruct Hw as [_ Hincl].
    split; [exact Hst|]. split; simpl.
    + split; [reflexivity|]. split.
      * apply Hincl. left. reflexivity.
      * intros x Hx. apply Hincl. right. exact Hx.
    + intros i r Hi. apply (reader_ok_relock None _ (store s)).
      * discriminate.
      * exact (Hr i r Hi).
  - intros [= <-]. destruct Hw as (Hlk & Hin & Hincl).
    split; [right; exact Hin|]. split; simpl.
    + split; [exact Hlk | exact Hincl].
    + intros i r Hi. apply (reader_ok_relock (lock s) _ (store s)).
      * rewrite Hlk. discriminate.
      * exact (Hr i r Hi).
  - intros [= <-]. destruct Hw as (Hlk & Hincl).
    split; [exact Hst|]. split; simpl.
    + split; [discriminate | exact Hincl].
    + intros i r Hi. apply (reader_ok_relock (lock s) _ (store s)).
      * rewrite Hlk. discriminate.
      * exact (Hr i r Hi).
Qed.

Lemma writer_ok_relock (lk lk' : option tid) (news : list (list Detection))
    (w : wstate) :
  lk <> Some Writer -> lk' <> Some Writer ->
  writer_ok lk news w -> writer_ok lk' news w.
Proof.
  intros Hlk Hlk'. destruct w; simpl.
  - intros [_ H]. split; assumption.
  - intros [H _]. contradiction.
  - intros [H _]. contradiction.
Qed.

Lemma take_snoc_lookup (st acc : list Detection) (d : Detection) :
  acc = take (length acc) st -> st !! length acc = Some d ->
  (acc ++ [d])%list = take (length (acc ++ [d])%list) st.
Proof.
  intros Hacc Hd. rewrite length_app. simpl. rewrite Nat.add_1_r.
  rewrite (take_S_r st (length acc) d Hd). rewrite <- Hacc. reflexivity.
Qed.

Lemma take_all_lookup (st acc : list Detection) :
  acc = take (length acc) st -> st !! length acc = None -> acc = st.
Proof.
  intros Hacc Hn. apply lookup_ge_None in Hn.
  rewrite Hacc. apply take_ge. exact Hn.
Qed.

Lemma reader_step_inv (prev : list Detection) (news : list (list Detection))
    (i : nat) (s s' : sys) :
  inv prev news s -> reader_step i s = Some s' -> inv prev news s'.
Proof.
  intros (Hst & Hw & Hr). unfold reader_step.
  destruct (readers s !! i) as [[|acc|acc|x]|] eqn:Ei; try discriminate.
  - (* the lock is taken *)
    destruct (lock s) eqn:El; [discriminate|]. intros [= <-].
    split; [exact Hst|]. split; simpl.
    + apply (writer_ok_relock None); [discriminate | discriminate | exact Hw].
    + intros j r Hj. apply list_lookup_insert_Some in Hj as [(<- & <- & _)|[Hne Hj]].
      * simpl. split; reflexivity.
      * apply (reader_ok_relock None _ (store s)); [discriminate | exact (Hr j r Hj)].
  - (* one element is copied, or the end of the list is seen *)
    destruct (Hr i _ Ei) as [Hlk Hacc].
    destruct (store s !! length acc) as [d|] eqn:Ed; intros [= <-].
    + split; [exact Hst|]. split; [exact Hw|]. simpl.
      intros j r Hj. apply list_lookup_insert_Some in Hj as [(<- & <- & _)|[Hne Hj]].
      * simpl. split; [exact Hlk | exact (take_snoc_lookup _ _ _ Hacc Ed)].
      * exact (Hr j r Hj).
    + split; [exact Hst|]. split; [exact Hw|]. simpl.
      intros j r Hj. apply list_lookup_insert_Some in Hj as [(<- & <- & _)|[Hne Hj]].
      * simpl. split; [exact Hlk | exact (take_all_lookup _ _ Hacc Ed)].
      * exact (Hr j r Hj).
  - (* the lock is released *)
    destruct (Hr i _ Ei) as [Hlk Hacc]. intros [= <-].
    split; [exact Hst|]. split; simpl.
    + apply (writer_ok_relock (lock s)); [rewrite Hlk | | exact Hw]; discriminate.
    + intros j r Hj. apply list_lookup_insert_Some in Hj as [(<- & <- & _)|[Hne Hj]].
      * simpl. rewrite Hacc. exact Hst.
      * apply (reader_ok_relock (lock s) _ (store s)); [|exact (Hr j r Hj)].
        rewrite Hlk. intros [= E]. apply Hne. exact E.
Qed.

Lemma step_inv (prev : list Detection) (news : list (list Detection))
    (a : action) (s s' : sys) :
  inv prev news s -> step a s = Some s' -> inv prev news s'.
Proof.
  destruct a as [|i]; simpl; [apply writer_step_inv | apply reader_step_inv].
Qed.

Lemma run_inv (prev : list Detection) (news : list (list Detection))
    (sched : list action) (s : sys) :
  inv prev news s -> inv prev news (run sched s).
Proof.
  revert s. induction sched as [|a sched IH]; intros s Hs; simpl; [exact Hs|].
  destruct (step a s) as [s'|] eqn:E.
  - apply IH. exact (step_inv _ _ _ _ _ Hs E).
  - apply IH. exact Hs.
Qed.

(** A read returns one of the lists the store has held. *)
Lemma returned_in_history (prev : list Detection) (news : list (list Detection))
    (n : nat) (sched : list action) (i : nat) (r : list Detection) :
  returned i (run sched (init prev news n)) = Some r -> In r (prev :: news).
Proof.
  intros H. pose proof (run_inv prev news sched _ (inv_init prev news n))
    as (_ & _ & Hr).
  unfold returned in H.
  destruct (readers (run sched (init prev news n)) !! i) as [[| | |x]|] eqn:E;
    try discriminate.
  injection H as <-. exact (Hr i _ E).
Qed.

Lemma run_returned_idle (i k : nat) (s : sys) (r : list Detection) :
  readers s !! i = Some (RReturned r) -> run (replicate k (Reader i)) s = s.
Proof.
  intros H. induction k as [|k IH]; simpl; [reflexivity|].
  unfold reader_step. rewrite H. exact IH.
Qed.

(** A reader that holds the lock and is left to run gets to the end of
    its copy and returns the list the store holds. *)
Lemma run_copying (i k m : nat) :
  forall (acc : list Detection) (s : sys),
    (length (store s) - length acc)%nat = m ->
    readers s !! i = Some (RCopying acc) ->
    acc = take (length acc) (store s) ->
    returned i (run (replicate (m + 2 + k) (Reader i)) s) = Some (store s).
Proof.
  induction m as [|m IH]; intros acc s Hm Hi Hacc.
  - assert (Hnone : store s !! length acc = None).
    { apply lookup_ge_None. lia. }
    pose proof (lookup_lt_Some _ _ _ Hi) as Hlt.
    simpl. unfold reader_step at 1. rewrite Hi, Hnone.
    unfold reader_step at 1. simpl.
    rewrite list_lookup_insert_eq by exact Hlt.
    rewrite list_insert_insert_eq.
    rewrite (run_returned_idle i k _ acc).
    + unfold returned; simpl. rewrite list_lookup_insert_eq by exact Hlt.
      rewrite (take_all_lookup _ _ Hacc Hnone). reflexivity.
    + simpl. apply list_lookup_insert_eq. exact Hlt.
  - assert (Hsome : is_Some (store s !! length acc)).
    { apply lookup_lt_is_Some. lia. }
    destruct Hsome as [d Hd].
    pose proof (lookup_lt_Some _ _ _ Hi) as Hlt.
    cbn [Nat.add replicate run step]. unfold reader_step at 1. rewrite Hi, Hd.
    match goal with
    | |- returned i (run _ ?s1) = _ =>
        change (Some (store s)) with (Some (store s1));
        apply (IH (acc ++ [d])%list s1)
    end; simpl.
    + rewrite length_app. simpl. lia.
    + apply list_lookup_insert_eq. exact Hlt.
    + exact (take_snoc_lookup _ _ _ Hacc Hd).
Qed.

Lemma run_solo (i : nat) (s : sys) :
  lock s = None -> readers s !! i = Some RCalled ->
  returned i (run (solo i (length (store s))) s) = Some (store s).
Proof.
  intros Hl Hi. pose proof (lookup_lt_Some _ _ _ Hi) as Hlt.
  unfold solo.
  replace (length (store s) + 3)%nat with (S (length (store s) + 2 + 0)) by lia.
  cbn [replicate run step]. unfold reader_step at 1. rewrite Hi, Hl.
  match goal with
  | |- returned i (run _ ?s1) = _ =>
      change (Some (store s)) with (Some (store s1));
      apply (run_copying i 0 (length (store s)) [] s1)
  end; simpl.
  - lia.
  - apply list_lookup_insert_eq. exact Hlt.
  - reflexivity.
Qed.

(** C1: the worker installs [L] over the snapshot [prev] while any
    number of readers call [get_current_detections], the threads being
    interleaved in any way, a reader being preemptible between any two
    elements of its copy: whatever a reader returns is [prev] in full
    or [L] in full; and a reader that finds the lock free and is left
    to run does return, with the list the store holds. *)
Theorem store_replace_atomic (prev L : list Detection) (n : nat)
    (sched : list action) (i : nat) (r : list Detection)
    (Hret : returned i (run sched (init prev [L] n)) = Some r) :
  (r = prev \/ r = L)
  /\ (forall (s : sys) (j : nat),
        lock s = None -> readers s !! j = Some RCalled ->
        returned j (run (solo j (length (store s))) s) = Some (store s)).
Proof.
  split.
  - destruct (returned_in_history prev [L] n sched i r Hret) as [H|[H|[]]];
      [left | right]; symmetry; exact H.
  - intros s j. apply run_solo.
Qed.

Lemma store_replace_atomic_witness :
  returned 0 (run interleaving (init (current_detections running_api) [[]] 2))
  = Some (current_detections running_api)
  /\ returned 1 (run interleaving (init (current_detections running_api) [[]] 2))
     = Some []
  /\ (current_detections running_api = current_detections running_api
      \/ current_detections running_api = []).
Proof.
  split; [reflexivity|]. split; [reflexivity|].
  exact (proj1 (store_replace_atomic (current_detections running_api) [] 2
                  interleaving 0 (current_detections running_api) eq_refl)).
Defined.

(** * Further properties of the code *)

(** ** [detect_objects] *)

Lemma label_of_index (idx : Z) :
  -21 <= idx < 21 -> py_index classes idx = inr (label_of idx).
Proof.
  intros H. unfold py_index, label_of.
  change (Z.of_nat (length classes)) with 21.
  assert (Hm : idx mod 21 = if idx <? 0 then idx + 21 else idx).
  { destruct (Z.ltb_spec idx 0).
    - symmetry. apply (Z.mod_unique idx 21 (-1)); lia.
    - apply Z.mod_small. lia. }
  rewrite Hm. set (i := if idx <? 0 then idx + 21 else idx).
  assert (Hi : 0 <= i < 21) by (unfold i; destruct (Z.ltb_spec idx 0); lia).
  destruct (Z.ltb_spec i 0); [lia|]. destruct (Z.leb_spec 21 i); [lia|]. simpl.
  assert (Hlt : (Z.to_nat i < length classes)%nat).
  { change (length classes) with 21%nat. lia. }
  rewrite (nth_error_nth' classes "" Hlt). reflexivity.
Qed.

Lemma index_out_of_range (idx : Z) :
  ~ (-21 <= idx < 21) -> py_index classes idx = inl IndexError.
Proof.
  intros H. unfold py_index. change (Z.of_nat (length classes)) with 21.
  destruct (Z.ltb_spec idx 0).
  - destruct (Z.ltb_spec (idx + 21) 0); [reflexivity|]. lia.
  - destruct (Z.ltb_spec idx 0); [lia|].
    destruct (Z.leb_spec 21 idx); [reflexivity|]. lia.
Qed.

Lemma valid_class_id_index (x : float) :
  valid_class_id x = true ->
  exists idx, int_of_float x = inr idx /\ -21 <= idx < 21.
Proof.
  unfold valid_class_id. destruct (int_of_float x) as [e|idx]; [discriminate|].
  intros H. apply andb_true_iff in H as [H1 H2].
  exists idx. split; [reflexivity|]. lia.
Qed.

Section DetectorProperties.

Context {Image : Type}.
Variable shape : Image -> Z * Z.
Variable forward : Image -> result (list NetRow).
Variable astype_int : float -> Z.

(** The entry appended for an accepted row. *)
Let decode (h w : Z) (row : NetRow) : RawObject :=
  {| obj_class := label_of (class_index row);
     obj_confidence := row_confidence row;
     obj_bbox := scale_box astype_int h w (row_box row) |}.

Lemma detect_loop_all_ok (h w : Z) (rows : list NetRow) (objects : list RawObject) :
  forallb row_ok rows = true ->
  detect_loop astype_int h w rows objects
  = inr (objects ++ map (decode h w) (List.filter accepted rows))%list.
Proof.
  revert objects. induction rows as [|row rows IH]; intros objects Hok; simpl.
  - rewrite app_nil_r. reflexivity.
  - simpl in Hok. apply andb_true_iff in Hok as [Hrow Hrest].
    unfold row_ok in Hrow. fold (accepted row).
    destruct (accepted row) eqn:Ha; simpl in Hrow.
    + destruct (valid_class_id_index _ Hrow) as (idx & Hidx & Hrange).
      rewrite Hidx. simpl. rewrite (label_of_index idx Hrange). simpl.
      rewrite (IH _ Hrest), <- app_assoc. simpl.
      unfold decode, class_index. rewrite Hidx. reflexivity.
    + apply IH, Hrest.
Qed.

Lemma detect_loop_some_bad (h w : Z) (rows : list NetRow) (objects : list RawObject) :
  forallb row_ok rows = false ->
  exists e, detect_loop astype_int h w rows objects = inl e.
Proof.
  revert objects. induction rows as [|row rows IH]; intros objects Hbad; simpl.
  - discriminate.
  - simpl in Hbad. fold (accepted row). unfold row_ok in Hbad.
    destruct (accepted row) eqn:Ha; simpl in Hbad.
    + destruct (valid_class_id (row_class_id row)) eqn:Hv; simpl in Hbad.
      * destruct (valid_class_id_index _ Hv) as (idx & Hidx & Hrange).
        rewrite Hidx. simpl. rewrite (label_of_index idx Hrange). simpl.
        apply IH, Hbad.
      * unfold valid_class_id in Hv.
        destruct (int_of_float (row_class_id row)) as [e|idx]; simpl.
        -- exists e. reflexivity.
        -- rewrite index_out_of_range; [exists IndexError; reflexivity|].
           intros Hr. apply andb_false_iff in Hv as [Hv|Hv].
           ++ apply Z.leb_gt in Hv. lia.
           ++ apply Z.ltb_ge in Hv. lia.
    + apply IH, Hbad.
Qed.

(** [detect_objects] returns the accepted rows (confidence above 0.5),
    in the order of the network's output, each with its confidence as
    it is, the label at its class index (a negative index counting
    from the end of the list) and its scaled box; rows at or below the
    threshold, or of NaN confidence, leave no entry. *)
Theorem detect_objects_accepted (frame : Image) (out : list RawObject)
    (Hret : detect_objects shape forward astype_int frame = inr out) :
  exists rows,
    forward frame = inr rows
    /\ map obj_confidence out = map row_confidence (List.filter accepted rows)
    /\ map obj_class out
       = map (fun row => label_of (class_index row)) (List.filter accepted rows)
    /\ map obj_bbox out
       = map (fun row => scale_box astype_int (fst (shape frame)) (snd (shape frame))
                           (row_box row))
             (List.filter accepted rows)
    /\ (length out <= length rows)%nat.
Proof.
  unfold detect_objects in Hret.
  destruct (forward frame) as [e|rows]; simpl in Hret; [discriminate|].
  exists rows. split; [reflexivity|].
  destruct (shape frame) as [h w]. simpl.
  destruct (forallb row_ok rows) eqn:Hok.
  - rewrite (detect_loop_all_ok h w rows [] Hok) in Hret. simpl in Hret.
    injection Hret as <-. rewrite !map_map. simpl.
    repeat split; try reflexivity.
    rewrite length_map. apply filter_length_le.
  - destruct (detect_loop_some_bad h w rows [] Hok) as [e He]. congruence.
Qed.

(** Once the network has answered, [detect_objects] raises exactly
    when some accepted row has a class id that is NaN, infinite, or
    whose integer part is outside [-21, 21); a row that is not accepted
    is never decoded, whatever its class id. *)
Theorem detect_objects_raises (frame : Image) (rows : list NetRow)
    (Hfwd : forward frame = inr rows) :
  (exists e, detect_objects shape forward astype_int frame = inl e)
  <-> (exists row, In row rows /\ accepted row = true
                   /\ valid_class_id (row_class_id row) = false).
Proof.
  unfold detect_objects. rewrite Hfwd. simpl. destruct (shape frame) as [h w].
  destruct (forallb row_ok rows) eqn:Hok.
  - rewrite (detect_loop_all_ok h w rows [] Hok). split.
    + intros [e He]. discriminate.
    + intros (row & Hin & Ha & Hv).
      rewrite forallb_forall in Hok. specialize (Hok row Hin).
      unfold row_ok in Hok. rewrite Ha, Hv in Hok. discriminate.
  - split.
    + intros _.
      assert (Hex : existsb (fun r => negb (row_ok r)) rows = true).
      { clear -Hok. induction rows as [|r rows IH]; simpl in *; [discriminate|].
        destruct (row_ok r); simpl in *; [apply IH, Hok | reflexivity]. }
      apply existsb_exists in Hex as (row & Hin & Hbad).
      exists row. split; [exact Hin|]. unfold row_ok in Hbad.
      destruct (accepted row); simpl in Hbad; [|discriminate].
      split; [reflexivity|]. destruct (valid_class_id _); [discriminate|reflexivity].
    + intros _. apply detect_loop_some_bad. exact Hok.
Qed.

End DetectorProperties.

Lemma detect_objects_accepted_witness :
  detect_objects im_shape im_output trunc_cast chair_image = inr [chair_object]
  /\ exists rows,
       im_output chair_image = inr rows
       /\ map obj_confidence [chair_object]
          = map row_confidence (List.filter accepted rows)
       /\ map obj_class [chair_object]
          = map (fun row => label_of (class_index row)) (List.filter accepted rows)
       /\ map obj_bbox [chair_object]
          = map (fun row => scale_box trunc_cast (fst (im_shape chair_image))
                              (snd (im_shape chair_image)) (row_box row))
                (List.filter accepted rows)
       /\ (length [chair_object] <= length rows)%nat.
Proof.
  split; [reflexivity|].
  exact (detect_objects_accepted im_shape im_output trunc_cast chair_image
           [chair_object] eq_refl).
Defined.

Lemma detect_objects_raises_witness :
  detect_objects im_shape im_output trunc_cast bad_id_image = inl IndexError
  /\ ((exists e, detect_objects im_shape im_output trunc_cast bad_id_image = inl e)
      <-> (exists row, In row bad_id_rows /\ accepted row = true
                       /\ valid_class_id (row_class_id row) = false)).
Proof.
  split; [reflexivity|].
  exact (detect_objects_raises im_shape im_output trunc_cast bad_id_image
           bad_id_rows eq_refl).
Defined.

(** ** The worker's turn *)

Lemma add64_fits (a b : Z) : - 2 ^ 63 <= a + b < 2 ^ 63 -> add64 a b = a + b.
Proof.
  intros H. unfold add64, wrap64.
  rewrite Z.mod_small by lia. lia.
Qed.

Lemma center_inside (a b : Z) : Z.min a b <= (a + b) / 2 <= Z.max a b.
Proof.
  pose proof (Z.div_mod (a + b) 2 ltac:(lia)) as Hd.
  pose proof (Z.mod_pos_bound (a + b) 2 ltac:(lia)) as Hm.
  lia.
Qed.

Section TurnProperties.

Context {Image DepthFrame : Type}.
Variable shape : Image -> Z * Z.
Variable forward : Image -> result (list NetRow).
Variable astype_int : float -> Z.
Variable get_distance : DepthFrame -> Z -> Z -> result float.

(** The depth of [d] was read off [depth_frame] at the center of its box. *)
Let depth_read (depth_frame : DepthFrame) (d : Detection) : Prop :=
  get_distance depth_frame (fst (center_of (det_bbox d))) (snd (center_of (det_bbox d)))
  = inr (det_depth d).

Lemma enrich_app (depth_frame : DepthFrame) (clock : nat -> string)
    (objects : list RawObject) (detections out : list Detection) :
  enrich get_distance depth_frame clock objects detections = inr out ->
  exists tail,
    out = (detections ++ tail)%list
    /\ map det_class tail = map obj_class objects
    /\ map det_confidence tail = map obj_confidence objects
    /\ map det_bbox tail = map obj_bbox objects
    /\ map det_timestamp tail = map clock (seq (length detections) (length objects))
    /\ Forall (depth_read depth_frame) tail.
Proof.
  revert detections. induction objects as [|o objects IH]; intros detections; simpl.
  - intros [= <-]. exists []. rewrite app_nil_r. repeat split. constructor.
  - destruct (obj_bbox o) as [[[startX startY] endX] endY] eqn:Hb.
    unfold get_depth_at_point.
    destruct (get_distance depth_frame _ _) as [e|depth] eqn:Hg; simpl; [discriminate|].
    intros H. destruct (IH _ H) as (tail & -> & Hc & Hf & Hbb & Ht & Hd).
    eexists (_ :: tail). rewrite <- app_assoc. simpl.
    split; [reflexivity|]. rewrite Hc, Hf, Hbb.
    repeat split.
    + rewrite Ht, length_app. simpl. rewrite Nat.add_1_r. reflexivity.
    + constructor; [|exact Hd].
      unfold depth_read. simpl. exact Hg.
Qed.

(** The turn makes one detection per object of the detector, in the
    same order, with the object's class, confidence and box unchanged,
    the [k]-th one stamped with the [k]-th reading of the clock. *)
Theorem enrich_keeps_objects (depth_frame : DepthFrame) (clock : nat -> string)
    (objects : list RawObject) (out : list Detection)
    (Hret : enrich get_distance depth_frame clock objects [] = inr out) :
  length out = length objects
  /\ map det_class out = map obj_class objects
  /\ map det_confidence out = map obj_confidence objects
  /\ map det_bbox out = map obj_bbox objects
  /\ map det_timestamp out = map clock (seq 0 (length objects)).
Proof.
  destruct (enrich_app _ _ _ _ _ Hret) as (tail & -> & Hc & Hf & Hb & Ht & _).
  simpl. repeat split; try assumption.
  rewrite <- (length_map det_class), Hc, length_map. reflexivity.
Qed.

(** The depth of every detection of a turn is the distance the depth
    frame gives at the center of its box, the pixel whose coordinates
    are the halves, rounded down, of the 64-bit sums of the opposite
    corners; when neither sum overflows this pixel lies within the box
    on both axes (also when the box is given with its corners
    swapped). *)
Theorem enrich_depth_in_box (depth_frame : DepthFrame) (clock : nat -> string)
    (objects : list RawObject) (out : list Detection)
    (Hret : enrich get_distance depth_frame clock objects [] = inr out) :
  forall d, In d out ->
    let '(x, y) := center_of (det_bbox d) in
    get_distance depth_frame x y = inr (det_depth d)
    /\ (sums_fit (det_bbox d) -> inside (det_bbox d) x y).
Proof.
  destruct (enrich_app _ _ _ _ _ Hret) as (tail & -> & _ & _ & _ & _ & Hd).
  simpl. intros d Hin. rewrite List.Forall_forall in Hd. specialize (Hd d Hin).
  unfold depth_read in Hd.
  destruct (center_of (det_bbox d)) as [x y] eqn:Hc.
  split; [exact Hd|].
  unfold center_of, sums_fit, inside in *.
  destruct (det_bbox d) as [[[startX startY] endX] endY].
  injection Hc as <- <-. intros [Hx Hy].
  rewrite !add64_fits by assumption. split; apply center_inside.
Qed.

End TurnProperties.

Lemma enrich_keeps_objects_witness :
  enrich test_distance flat_depth at_noon [chair_object] []
  = inr (current_detections running_api)
  /\ map det_class (current_detections running_api) = map obj_class [chair_object].
Proof.
  split; [reflexivity|].
  exact (proj1 (proj2 (enrich_keeps_objects test_distance flat_depth at_noon
                         [chair_object] (current_detections running_api) eq_refl))).
Defined.

Lemma enrich_depth_in_box_witness :
  In (mkDetection "chair" 0.7%float (160, 120, 320, 360) 1.5%float
        "2024-01-01T12:00:00")
     (current_detections running_api)
  /\ center_of (160, 120, 320, 360) = (240, 240)
  /\ test_distance flat_depth 240 240 = inr 1.5%float
  /\ (sums_fit (160, 120, 320, 360) -> inside (160, 120, 320, 360) 240 240).
Proof.
  split; [left; reflexivity|].
  split; [reflexivity|].
  exact (enrich_depth_in_box test_distance flat_depth at_noon [chair_object]
           (current_detections running_api) eq_refl
           (mkDetection "chair" 0.7%float (160, 120, 320, 360) 1.5%float
              "2024-01-01T12:00:00")
           (or_introl eq_refl)).
Defined.

(** When the sum of two corners overflows, the center is read off
    outside the box. *)
Lemma center_wraps :
  let bbox := (2 ^ 62, 0, 2 ^ 62, 0) in
  center_of bbox = (- 2 ^ 62, 0) /\ ~ inside bbox (- 2 ^ 62) 0.
Proof. split; [reflexivity|]. unfold inside. simpl. lia. Qed.

(** ** The worker loop over several turns *)

Section LoopProperties.

Context {Image DepthFrame : Type}.
Variable shape : Image -> Z * Z.
Variable forward : Image -> result (list NetRow).
Variable astype_int : float -> Z.
Variable get_distance : DepthFrame -> Z -> Z -> result float.

Abbreviation turn := (loop_turn shape forward astype_int get_distance).
Abbreviation loop := (detection_loop shape forward astype_int get_distance).
Abbreviation outcome := (cycle_detections shape forward astype_int get_distance).

Lemma missed_outcome (c : Cycle) : missed c = true -> outcome c = inr None.
Proof.
  unfold missed, cycle_detections.
  destruct (frames c) as [e|[[color|] [depth|]]]; simpl; try discriminate;
    reflexivity.
Qed.

Lemma loop_turn_handles (c : Cycle) (s : API) :
  detector (snd (turn c s)) = detector s
  /\ detection_thread (snd (turn c s)) = detection_thread s
  /\ (is_running (snd (turn c s)) = true -> is_running s = true).
Proof.
  unfold loop_turn. destruct (is_running s) eqn:Hr; simpl;
    [|repeat split; congruence].
  destruct (detector s) eqn:Hd; simpl; [|repeat split; congruence].
  destruct (outcome c) as [e|[S|]]; simpl; repeat split; congruence.
Qed.

(** A turn on which a frame is missing is skipped: through any number
    of such turns the loop keeps going and the instance (snapshot,
    flag, detector, thread) is left as it was. *)
Theorem missed_frames_skip (cs : list Cycle) (s : API)
    (Hrun : is_running s = true)
    (Hdet : detector s <> None)
    (Hmiss : forallb missed cs = true) :
  loop cs s = (Looping, s).
Proof.
  induction cs as [|c cs IH]; simpl; [reflexivity|].
  simpl in Hmiss. apply andb_true_iff in Hmiss as [Hc Hcs].
  unfold loop_turn. rewrite Hrun, (missed_outcome c Hc). simpl.
  destruct (detector s); [exact (IH Hcs) | contradiction].
Qed.

(** Whatever the turns, the snapshot the loop leaves is the one it
    found or the list computed by one single turn: lists of different
    turns are never merged, and a turn that raises or misses a frame
    contributes nothing. *)
Theorem snapshot_of_one_turn (cs : list Cycle) (s : API) :
  let S := current_detections (snd (loop cs s)) in
  S = current_detections s
  \/ exists c, In c cs /\ outcome c = inr (Some S).
Proof.
  cbv zeta. revert s. induction cs as [|c cs IH]; intros s; simpl; [left; reflexivity|].
  pose proof (loop_turn_store shape forward astype_int get_distance c s) as Hone.
  destruct (turn c s) as [[] s1] eqn:Ht; simpl in Hone.
  - destruct (IH s1) as [E|(c' & Hin & Hc')].
    + rewrite E. destruct Hone as [->|Hc]; [left; reflexivity|].
      right. exists c. split; [left; reflexivity | exact Hc].
    + right. exists c'. split; [right; exact Hin | exact Hc'].
  - simpl. destruct Hone as [->|Hc]; [left; reflexivity|].
    right. exists c. split; [left; reflexivity | exact Hc].
Qed.

(** The loop never touches the detector or the thread handle, and it
    never sets the run flag: it can only clear it. *)
Theorem loop_keeps_handles (cs : list Cycle) (s : API) :
  detector (snd (loop cs s)) = detector s
  /\ detection_thread (snd (loop cs s)) = detection_thread s
  /\ (is_running (snd (loop cs s)) = true -> is_running s = true).
Proof.
  revert s. induction cs as [|c cs IH]; intros s; simpl; [auto|].
  destruct (loop_turn_handles c s) as (Hd & Ht & Hr).
  destruct (turn c s) as [[] s1]; simpl in *.
  - destruct (IH s1) as (Hd1 & Ht1 & Hr1).
    rewrite Hd1, Ht1, Hd, Ht. auto.
  - auto.
Qed.

(** After [stop()] the loop returns at its next test: it publishes
    nothing more and changes nothing, whatever the frames would have
    given. *)
Theorem stop_ends_loop (c : Cycle) (cs : list Cycle) (s : API) :
  loop (c :: cs) (state_of (stop_detection s))
  = (Returned, state_of (stop_detection s)).
Proof. reflexivity. Qed.

End LoopProperties.

Lemma missed_frames_skip_witness :
  forallb missed [missed_cycle; missed_cycle] = true
  /\ test_loop [missed_cycle; missed_cycle] running_api = (Looping, running_api).
Proof.
  split; [reflexivity|].
  apply (missed_frames_skip im_shape im_output trunc_cast test_distance
           [missed_cycle; missed_cycle] running_api);
    [reflexivity | discriminate | reflexivity].
Defined.

(** ** The lifecycle over whole sessions *)

Lemma ObjectDetector_init_ok (env : Env) :
  (env_ok env = true -> ObjectDetector_init env = inr ObjectDetector_instance)
  /\ (env_ok env = false -> exists e, ObjectDetector_init env = inl e).
Proof.
  unfold env_ok, ObjectDetector_init, load_model.
  destruct (pipeline_starts env), (prototxt_exists env), (caffemodel_exists env),
    (net_loads env); simpl; split; intros H; try discriminate H;
    try reflexivity; eexists; reflexivity.
Qed.

Lemma stop_detection_stopped (s : API) :
  is_running s = false -> state_of (stop_detection s) = s.
Proof.
  intros H. destruct s as [d r c t]. simpl in H. subst r. reflexivity.
Qed.

(** [start()] on an instance that is not running answers [started]
    exactly when the instance already has a detector (the machine is
    then not looked at again) or the constructor has what it needs:
    the camera starts, both model files exist and the network loads;
    it then sets the flag and starts one thread.  Otherwise it answers
    [error], changes nothing and starts no thread. *)
Theorem start_detection_outcome (env : Env) (s : API)
    (Hstopped : is_running s = false) :
  let r := start_detection env s in
  (response_of r = started <-> (detector s <> None \/ env_ok env = true))
  /\ (response_of r = started ->
      is_running (state_of r) = true
      /\ detector (state_of r) <> None
      /\ effects_of r = [ThreadStart {| daemon := true |}])
  /\ (response_of r <> started ->
      response_of r = error /\ state_of r = s /\ effects_of r = []).
Proof.
  cbv zeta. unfold start_detection, initialize_detector, response_of, state_of,
    effects_of. rewrite Hstopped.
  destruct (detector s) as [d|] eqn:Hd; simpl.
  - split; [split; [intros _; left; discriminate | reflexivity]|].
    split; [|intros H; contradiction].
    intros _. split; [reflexivity|]. split; [rewrite Hd; discriminate | reflexivity].
  - destruct (ObjectDetector_init_ok env) as [Hok Hbad].
    destruct (env_ok env) eqn:He.
    + rewrite (Hok eq_refl). simpl.
      split; [split; [intros _; right; reflexivity | reflexivity]|].
      split; [|intros H; contradiction].
      intros _. split; [reflexivity|]. split; [discriminate | reflexivity].
    + destruct (Hbad eq_refl) as [e ->]. simpl.
      split; [split; [discriminate | intros [H|H]; [contradiction | discriminate]]|].
      split; [discriminate|]. intros _. repeat split.
Qed.

Lemma start_detection_outcome_witness :
  response_of (start_detection no_model_env
                 (state_of (stop_detection running_api))) = started
  /\ (response_of (start_detection no_model_env API_init) <> started ->
      response_of (start_detection no_model_env API_init) = error
      /\ state_of (start_detection no_model_env API_init) = API_init
      /\ effects_of (start_detection no_model_env API_init) = []).
Proof.
  split; [reflexivity|].
  exact (proj2 (proj2 (start_detection_outcome no_model_env API_init eq_refl))).
Defined.

(** Neither [start()] nor [stop()] assigns the snapshot: the instance
    each of them leaves holds the list the instance held when the call
    began, so a summary or a query computed on the one is the summary
    or the query computed on the other.  What a worker turn in flight
    writes meanwhile is another matter, stated with the sessions below. *)
Theorem lifecycle_keeps_snapshot (env : Env) (s : API) :
  current_detections (state_of (start_detection env s)) = current_detections s
  /\ current_detections (state_of (stop_detection s)) = current_detections s
  /\ (forall np_mean now,
        get_detection_summary np_mean now (state_of (start_detection env s))
        = get_detection_summary np_mean now s
        /\ get_detection_summary np_mean now (state_of (stop_detection s))
           = get_detection_summary np_mean now s)
  /\ (forall q,
        query q (state_of (start_detection env s)) = query q s
        /\ query q (state_of (stop_detection s)) = query q s).
Proof.
  assert (H1 : current_detections (state_of (start_detection env s))
               = current_detections s).
  { unfold start_detection, initialize_detector, state_of.
    destruct (is_running s); [reflexivity|].
    destruct (detector s); simpl; [reflexivity|].
    destruct (ObjectDetector_init env); reflexivity. }
  assert (H2 : current_detections (state_of (stop_detection s))
               = current_detections s) by reflexivity.
  unfold get_detection_summary, query, get_current_detections.
  rewrite H1, H2. repeat split.
Qed.

Section LifecycleProperties.

Context {Image DepthFrame : Type}.
Variable shape : Image -> Z * Z.
Variable forward : Image -> result (list NetRow).
Variable astype_int : float -> Z.
Variable get_distance : DepthFrame -> Z -> Z -> result float.

Abbreviation apply := (apply_event shape forward astype_int get_distance).
Abbreviation events := (run_events shape forward astype_int get_distance).
Abbreviation body := (cycle_detections shape forward astype_int get_distance).

(** What every session keeps. *)
Let sound (s : API) : Prop :=
  (is_running s = true -> detector s <> None /\ detection_thread s <> None)
  /\ (detection_thread s <> None -> detector s <> None)
  /\ Forall published_ok (current_detections s).

(** A turn is its test followed by its end. *)
Lemma loop_turn_end (c : Cycle) (s : API) :
  snd (loop_turn shape forward astype_int get_distance c s)
  = if passes_test s then turn_end (body c) s else s.
Proof.
  unfold loop_turn, passes_test.
  destruct (is_running s); simpl; [|reflexivity].
  destruct (detector s); [|reflexivity].
  destruct (body c) as [e|[S|]]; reflexivity.
Qed.

Lemma turn_is_begin_end (c : Cycle) (s : Session Image DepthFrame) :
  apply (ETurn c) s = events [EBegin c; EEnd (length (in_flight s))] s.
Proof.
  unfold run_events. simpl. rewrite loop_turn_end.
  destruct (passes_test (api s)); simpl.
  - rewrite list_lookup_middle by reflexivity.
    rewrite delete_middle, app_nil_r. reflexivity.
  - rewrite lookup_ge_None_2 by lia. destruct s; reflexivity.
Qed.

Lemma turn_end_sound (c : Cycle) (s : API) : sound s -> sound (turn_end (body c) s).
Proof.
  intros (Hrun & Hthr & Hpub). unfold turn_end.
  destruct (body c) as [e|[S|]] eqn:E; simpl.
  - split; [discriminate|]. split; [exact Hthr | exact Hpub].
  - split; [exact Hrun|]. split; [exact Hthr|].
    exact (cycle_detections_ok _ _ _ _ _ _ E).
  - split; [exact Hrun|]. split; [exact Hthr | exact Hpub].
Qed.

Lemma apply_event_sound (e : Event) (s : Session Image DepthFrame) :
  sound (api s) -> sound (api (apply e s)).
Proof.
  intros Hs. destruct e as [env| |c|c|k]; simpl.
  - destruct Hs as (Hrun & Hthr & Hpub).
    pose proof (conj Hrun (conj Hthr Hpub) : sound (api s)) as Hs.
    unfold start_detection, initialize_detector, state_of.
    destruct (is_running (api s)) eqn:Hr; simpl; [exact Hs|].
    destruct (detector (api s)) as [d|] eqn:Hd; simpl.
    + split; [intros _; simpl; rewrite Hd; split; discriminate|].
      split; [intros _; simpl; rewrite Hd; discriminate | exact Hpub].
    + destruct (ObjectDetector_init env) as [e|d]; simpl.
      * exact Hs.
      * split; [intros _; simpl; split; discriminate|].
        split; [intros _; simpl; discriminate | exact Hpub].
  - destruct Hs as (Hrun & Hthr & Hpub).
    unfold stop_detection, state_of; simpl.
    split; [discriminate|]. split; [exact Hthr | exact Hpub].
  - rewrite loop_turn_end. destruct (passes_test (api s)); [|exact Hs].
    apply turn_end_sound, Hs.
  - destruct (passes_test (api s)); exact Hs.
  - destruct (in_flight s !! k); [|exact Hs]. simpl. apply turn_end_sound, Hs.
Qed.

(** In every state a fresh instance reaches through [start()],
    [stop()] and worker turns, whether a turn runs between two calls
    or is in flight across them: while the run flag is set there is a
    detector and a thread handle (so the loop's exit on a missing
    detector is never taken), a thread handle is never there without a
    detector, and the snapshot holds only detections of confidence
    above 0.5 with a label of the list. *)
Theorem session_invariant (es : list Event) :
  let s := api (events es (fresh API_init)) in
  (is_running s = true -> detector s <> None /\ detection_thread s <> None)
  /\ (detection_thread s <> None -> detector s <> None)
  /\ Forall published_ok (current_detections s).
Proof.
  cbv zeta. change (sound (api (events es (fresh API_init)))).
  assert (H0 : sound (api (fresh (Image := Image) (DepthFrame := DepthFrame) API_init))).
  { repeat split; simpl; try discriminate; try contradiction. constructor. }
  revert H0. generalize (fresh (Image := Image) (DepthFrame := DepthFrame) API_init) as s.
  unfold run_events.
  induction es as [|e es IH]; intros s Hs; simpl; [exact Hs|].
  apply IH, apply_event_sound, Hs.
Qed.

(** Once the run flag is cleared (by [stop()] or by a failed turn) and
    no turn is in flight, nothing but a [start()] changes the
    instance: further [stop()]s and the tests of loops still alive
    leave the snapshot, the flag, the detector and the thread handle
    as they are, and open no turn. *)
Theorem stopped_stays_put (es : list Event) (s : Session Image DepthFrame)
    (Hstopped : is_running (api s) = false)
    (Hnone : in_flight s = [])
    (Hnostart : forallb (fun e => negb (is_start e)) es = true) :
  events es s = s.
Proof.
  unfold run_events. induction es as [|e es IH]; simpl; [reflexivity|].
  simpl in Hnostart. apply andb_true_iff in Hnostart as [He Hes].
  assert (Hap : apply e s = s).
  { destruct s as [a l]. simpl in Hstopped, Hnone. subst l.
    destruct e as [env| |c|c|k]; simpl in *.
    - discriminate.
    - rewrite (stop_detection_stopped a Hstopped). reflexivity.
    - unfold loop_turn. rewrite Hstopped. reflexivity.
    - unfold passes_test. rewrite Hstopped. reflexivity.
    - reflexivity. }
  rewrite Hap. exact (IH Hes).
Qed.

(** A turn that has passed the test of line 64 when [stop()] is called
    still ends after it: the list it computed is published although
    the run flag is cleared, and replaces what the store held. *)
Theorem turn_in_flight_publishes (c : Cycle) (S : list Detection)
    (s : Session Image DepthFrame)
    (Hrun : passes_test (api s) = true)
    (Hout : body c = inr (Some S)) :
  let s' := events [EBegin c; EStop; EEnd (length (in_flight s))] s in
  is_running (api s') = false
  /\ current_detections (api s') = S
  /\ in_flight s' = in_flight s
  /\ api s' = set_current_detections S (state_of (stop_detection (api s))).
Proof.
  cbv zeta. unfold run_events. simpl. rewrite Hrun. simpl.
  rewrite list_lookup_middle by reflexivity. simpl.
  rewrite Hout, delete_middle. simpl. rewrite app_nil_r. repeat split.
Qed.



End LifecycleProperties.

Lemma stopped_stays_put_witness :
  run_events im_shape im_output trunc_cast test_distance
    [EBegin chair_cycle; ETurn chair_cycle; EStop; EEnd 0; ETurn failing_cycle]
    (fresh (state_of (stop_detection running_api)))
  = fresh (state_of (stop_detection running_api)).
Proof.
  apply (stopped_stays_put im_shape im_output trunc_cast test_distance
           [EBegin chair_cycle; ETurn chair_cycle; EStop; EEnd 0; ETurn failing_cycle]
           (fresh (state_of (stop_detection running_api))));
    reflexivity.
Defined.

Lemma turn_in_flight_publishes_witness :
  let s := fresh (state_of (start_detection good_env API_init)) in
  let s' := run_events im_shape im_output trunc_cast test_distance
              [EBegin chair_cycle; EStop; EEnd 0] s in
  current_detections (api s) = []
  /\ is_running (api s') = false
  /\ current_detections (api s') = current_detections running_api.
Proof.
  cbv zeta. split; [reflexivity|].
  pose proof (turn_in_flight_publishes im_shape im_output trunc_cast test_distance
                chair_cycle (current_detections running_api)
                (fresh (state_of (start_detection good_env API_init)))
                eq_refl eq_refl) as H.
  cbv zeta in H. destruct H as (H1 & H2 & _).
  split; [exact H1 | exact H2].
Defined.



(** ** More on the summary *)

Lemma is_key_dict_get (m : class_counts_t) (k : string) :
  is_key m k = match dict_get k m with Some _ => true | None => false end.
Proof.
  unfold is_key, keys. induction m as [|[k' v] m IH]; simpl; [reflexivity|].
  destruct (String.eqb k' k); simpl; [reflexivity | exact IH].
Qed.

Lemma keys_count_step (m : class_counts_t) (d : Detection) :
  keys (count_step m d)
  = if is_key m (det_class d) then keys m else (keys m ++ [det_class d])%list.
Proof.
  rewrite is_key_dict_get. unfold count_step.
  destruct (dict_get (det_class d) m) as [n|] eqn:E.
  - rewrite E, keys_dict_set, E. reflexivity.
  - rewrite dict_get_set_eq, keys_dict_set, dict_get_set_eq, keys_dict_set, E.
    reflexivity.
Qed.

Lemma is_key_app (m : class_counts_t) (c k : string) :
  existsb (fun k' => String.eqb k' k) (keys m ++ [c])
  = is_key m k || String.eqb c k.
Proof. unfold is_key. rewrite existsb_app. simpl. rewrite orb_false_r. reflexivity. Qed.

Lemma filter_filter_and {A} (f g : A -> bool) (l : list A) :
  List.filter f (List.filter g l) = List.filter (fun x => g x && f x) l.
Proof.
  induction l as [|a l IH]; simpl; [reflexivity|].
  destruct (g a); simpl; [destruct (f a); rewrite IH; reflexivity | exact IH].
Qed.

Lemma is_key_count_step (m : class_counts_t) (d : Detection) (k : string) :
  is_key (count_step m d) k = is_key m k || String.eqb (det_class d) k.
Proof.
  unfold is_key at 1. rewrite keys_count_step.
  destruct (is_key m (det_class d)) eqn:Hc.
  - fold (is_key m k).
    destruct (String.eqb_spec (det_class d) k) as [<-|_].
    + rewrite Hc. reflexivity.
    + rewrite orb_false_r. reflexivity.
  - apply is_key_app.
Qed.

Lemma keys_fold_count (l : list Detection) (m : class_counts_t) :
  keys (fold_left count_step l m)
  = (keys m
     ++ List.filter (fun c => negb (is_key m c))
          (first_occurrences (map det_class l)))%list.
Proof.
  revert m. induction l as [|d l IH]; intros m; simpl.
  - rewrite app_nil_r. reflexivity.
  - rewrite IH, keys_count_step.
    set (c := det_class d). set (F := first_occurrences (map det_class l)).
    assert (HF : List.filter (fun k => negb (is_key (count_step m d) k)) F
                 = List.filter (fun k => negb (is_key m k))
                     (List.filter (fun y => negb (String.eqb y c)) F)).
    { rewrite filter_filter_and. apply filter_ext. intros k.
      rewrite is_key_count_step. fold c. rewrite (String.eqb_sym c k).
      destruct (String.eqb k c), (is_key m k); reflexivity. }
    rewrite HF. destruct (is_key m c) eqn:Hc; simpl.
    + reflexivity.
    + rewrite <- app_assoc. reflexivity.
Qed.

(** The classes of the summary come in the order in which they first
    appear in the snapshot, each once. *)
Theorem summary_class_order (np_mean : list float -> float) (now : string)
    (S : list Detection) :
  map cs_class (objects (summary_of np_mean now S))
  = first_occurrences (map det_class S).
Proof.
  rewrite summary_objects, map_map.
  transitivity (keys (count_classes S)).
  - unfold keys. apply map_ext. intros [k v]. reflexivity.
  - unfold count_classes. rewrite keys_fold_count. simpl.
    apply filter_all. reflexivity.
Qed.

Lemma In_dict_get (m : class_counts_t) (k : string) (v : nat) :
  NoDup (keys m) -> In (k, v) m -> dict_get k m = Some v.
Proof.
  induction m as [|[k' v'] m IH]; simpl; [tauto|].
  intros Hnd [E|Hin]; apply NoDup_cons in Hnd as [Hnotin Hnd].
  - injection E as -> ->. rewrite String.eqb_refl. reflexivity.
  - destruct (String.eqb_spec k' k) as [->|_]; [|exact (IH Hnd Hin)].
    exfalso. apply Hnotin. apply list_elem_of_In.
    exact (in_map fst _ _ Hin).
Qed.

Lemma count_of_pos_In (c : string) (S : list Detection) :
  count_of c S <> 0%nat -> exists d, In d S /\ det_class d = c.
Proof.
  unfold count_of. intros H.
  destruct (List.filter (fun d => String.eqb (det_class d) c) S) as [|d f] eqn:E;
    [contradiction|].
  assert (Hin : In d (List.filter (fun d => String.eqb (det_class d) c) S)).
  { rewrite E. left. reflexivity. }
  apply filter_In in Hin as [Hin Hc]. exists d. split; [exact Hin|].
  apply String.eqb_eq. exact Hc.
Qed.

Lemma count_classes_entry (S : list Detection) (k : string) (v : nat) :
  In (k, v) (count_classes S) -> v = count_of k S /\ v <> 0%nat.
Proof.
  intros Hin. apply (In_dict_get _ _ _ (count_classes_NoDup S)) in Hin.
  rewrite count_classes_get in Hin.
  destruct (Nat.eqb_spec (count_of k S) 0); [discriminate|].
  injection Hin as <-. split; [reflexivity | assumption].
Qed.

Lemma length_le_sum_counts (m : class_counts_t) :
  (forall k v, In (k, v) m -> v <> 0%nat) -> (length m <= sum_counts m)%nat.
Proof.
  induction m as [|[k v] m IH]; simpl; intros H; [lia|].
  pose proof (H k v (or_introl eq_refl)).
  assert (length m <= sum_counts m)%nat.
  { apply IH. intros k' v' Hin. apply (H k' v'). right. exact Hin. }
  lia.
Qed.

(** The summary has one entry per class of the snapshot and no other:
    the classes of its entries are distinct, every entry counts at
    least one detection and names a class that occurs, so there are at
    most as many entries as detections; on a snapshot of the worker
    the classes are labels of the list and there are at most 21
    entries. *)
Theorem summary_entries (np_mean : list float -> float) (now : string)
    (S : list Detection) :
  let entries := objects (summary_of np_mean now S) in
  NoDup (map cs_class entries)
  /\ (forall e, In e entries ->
        (1 <= cs_count e)%nat /\ exists d, In d S /\ det_class d = cs_class e)
  /\ (length entries <= length S)%nat
  /\ (Forall published_ok S ->
      (length entries <= 21)%nat
      /\ forall e, In e entries -> In (cs_class e) classes).
Proof.
  cbv zeta. rewrite summary_objects.
  assert (Hkeys : map cs_class (map (entry_of np_mean S) (count_classes S))
                  = keys (count_classes S)).
  { rewrite map_map. apply map_ext. intros [k v]. reflexivity. }
  assert (Hent : forall e, In e (map (entry_of np_mean S) (count_classes S)) ->
                 (1 <= cs_count e)%nat
                 /\ exists d, In d S /\ det_class d = cs_class e).
  { intros e He. apply in_map_iff in He as ([k v] & <- & Hin).
    destruct (count_classes_entry S k v Hin) as [Hv Hpos]. simpl.
    split; [lia|]. apply count_of_pos_In. rewrite <- Hv. exact Hpos. }
  split; [rewrite Hkeys; apply count_classes_NoDup|].
  split; [exact Hent|].
  split.
  { rewrite length_map, <- (count_classes_sum S). apply length_le_sum_counts.
    intros k v Hin. exact (proj2 (count_classes_entry S k v Hin)). }
  intros Hpub.
  assert (Hcls : forall e, In e (map (entry_of np_mean S) (count_classes S)) ->
                 In (cs_class e) classes).
  { intros e He. destruct (Hent e He) as [_ (d & Hd & <-)].
    rewrite List.Forall_forall in Hpub. exact (proj2 (Hpub d Hd)). }
  split; [|exact Hcls].
  rewrite <- (length_map cs_class).
  change 21%nat with (length classes).
  apply List.NoDup_incl_length.
  - rewrite Hkeys. apply NoDup_ListNoDup, count_classes_NoDup.
  - intros c Hc. apply in_map_iff in Hc as (e & <- & He). exact (Hcls e He).
Qed.

Lemma count_of_Permutation (c : string) (S S' : list Detection) :
  Permutation S S' -> count_of c S = count_of c S'.
Proof.
  induction 1 as [|d l l' _ IH|d d' l|l l' l'' _ IH1 _ IH2].
  - reflexivity.
  - rewrite !count_of_cons, IH. reflexivity.
  - rewrite !count_of_cons. lia.
  - congruence.
Qed.

(** The counts do not depend on the order of the snapshot: two
    snapshots with the same detections in another order give the same
    total and, class by class, the same count. *)
Theorem summary_counts_unordered (np_mean : list float -> float) (now : string)
    (S S' : list Detection)
    (Hperm : Permutation S S') :
  total_objects (summary_of np_mean now S) = total_objects (summary_of np_mean now S')
  /\ forall c,
       map cs_count
         (List.filter (fun e => String.eqb (cs_class e) c)
            (objects (summary_of np_mean now S)))
       = map cs_count
           (List.filter (fun e => String.eqb (cs_class e) c)
              (objects (summary_of np_mean now S'))).
Proof.
  split.
  - assert (Hl : length S = length S') by (apply Permutation_length, Hperm).
    destruct S, S'; simpl in *; congruence.
  - intros c. rewrite !summary_objects, !filter_entries.
    rewrite !(filter_key_NoDup c _ (count_classes_NoDup _)).
    rewrite !count_classes_get, (count_of_Permutation c S S' Hperm).
    destruct (count_of c S' =? 0)%nat; reflexivity.
Qed.

Lemma summary_counts_unordered_witness :
  Permutation two_chairs two_chairs_swapped
  /\ total_objects (summary_of left_mean "2024-01-01T12:05:00" two_chairs)
     = total_objects (summary_of left_mean "2024-01-01T12:05:00" two_chairs_swapped).
Proof.
  assert (H : Permutation two_chairs two_chairs_swapped) by apply perm_swap.
  split; [exact H|].
  exact (proj1 (summary_counts_unordered left_mean "2024-01-01T12:05:00" two_chairs
                  two_chairs_swapped H)).
Defined.

(** ** More on the query *)

Lemma filter_sublist_impl {A} (f g : A -> bool) (l : list A) :
  (forall a, f a = true -> g a = true) ->
  sublist (List.filter f l) (List.filter g l).
Proof.
  intros H. induction l as [|a l IH]; simpl; [constructor|].
  destruct (f a) eqn:Hf.
  - rewrite (H a Hf). apply sublist_skip, IH.
  - destruct (g a); [apply sublist_cons, IH | exact IH].
Qed.

Lemma filter_idem {A} (f : A -> bool) (l : list A) :
  List.filter f (List.filter f l) = List.filter f l.
Proof.
  apply filter_all. intros a Ha. apply filter_In in Ha. tauto.
Qed.

(** Filtering the filtered list again with the same arguments gives it
    back unchanged, and the list filtered with a class filter or a
    depth filter is a subsequence of the list filtered without that
    filter: a filter only ever removes detections; the filtered list
    is no longer than the snapshot. *)
Theorem query_filters_narrow (q : QueryArgs) (S : list Detection) :
  filtered_of q (filtered_of q S) = filtered_of q S
  /\ sublist (filtered_of q S) (filtered_of (drop_class q) S)
  /\ sublist (filtered_of q S) (filtered_of (drop_depth q) S)
  /\ (length (filtered_of q S) <= length S)%nat.
Proof.
  rewrite !filtered_of_filter.
  split; [apply filter_idem|].
  split.
  { apply filter_sublist_impl. intros d. unfold passes, drop_class,
      min_confidence_of; simpl.
    intros H. apply andb_true_iff in H as [H H3].
    apply andb_true_iff in H as [_ H2]. rewrite H2, H3. reflexivity. }
  split.
  { apply filter_sublist_impl. intros d. unfold passes, drop_depth,
      min_confidence_of; simpl.
    intros H. apply andb_true_iff in H as [H _]. rewrite H. reflexivity. }
  apply filter_length_le.
Qed.

(** On a snapshot of the worker, a query for a class that is not one
    of the 21 labels (and not the empty string, which stands for no
    filter) is answered, with the empty list and count 0, whatever the
    other filters. *)
Theorem query_unknown_class (q : QueryArgs) (S : list Detection) (c : string)
    (Hpub : Forall published_ok S)
    (Hclass : arg_class q = Some c)
    (Hnonempty : c <> "")
    (Hunknown : ~ In c classes) :
  query_objects q S
  = inr {| qr_query := {| echo_class := Some c;
                          echo_min_confidence := min_confidence_of q;
                          echo_max_depth := arg_max_depth q |};
           qr_results := [];
           qr_count := 0 |}.
Proof.
  assert (H : List.filter (passes q) S = []).
  { apply filter_none. intros d Hd.
    rewrite List.Forall_forall in Hpub. destruct (Hpub d Hd) as [_ Hin].
    unfold passes. rewrite Hclass.
    destruct (String.eqb_spec c "") as [->|_]; [contradiction|].
    destruct (String.eqb_spec (det_class d) c) as [<-|_]; [contradiction|].
    reflexivity. }
  rewrite query_objects_answer, filtered_of_filter, H, Hclass. reflexivity.
Qed.

Lemma query_unknown_class_witness :
  Forall published_ok (current_detections running_api)
  /\ query_objects
       {| arg_class := Some "laptop"; arg_min_confidence := None;
          arg_max_depth := None |}
       (current_detections running_api)
     = inr {| qr_query := {| echo_class := Some "laptop";
                             echo_min_confidence := default_min_confidence;
                             echo_max_depth := None |};
              qr_results := [];
              qr_count := 0 |}.
Proof.
  assert (H : Forall published_ok (current_detections running_api)).
  { constructor; [|constructor]. split; [reflexivity|].
    simpl. do 9 right. left. reflexivity. }
  split; [exact H|].
  refine (query_unknown_class
            {| arg_class := Some "laptop"; arg_min_confidence := None;
               arg_max_depth := None |}
            (current_detections running_api) "laptop" H eq_refl _ _).
  - discriminate.
  - simpl. intros Hin.
    repeat (destruct Hin as [Hin|Hin]; [discriminate Hin|]). exact Hin.
Defined.


(** ** More on the store under concurrency *)

Lemma run_app (sched sched' : list action) (s : sys) :
  run (sched ++ sched') s = run sched' (run sched s).
Proof.
  revert s. induction sched as [|a sched IH]; intros s; simpl; [reflexivity|].
  destruct (step a s); apply IH.
Qed.

(** The lock keeps the threads apart: in every state of every
    schedule, a reader that is inside its copy holds the lock, so no
    other reader is inside a copy and the worker is not inside its
    swap. *)
Theorem store_mutual_exclusion (prev : list Detection)
    (news : list (list Detection)) (n : nat) (sched : list action) :
  let s := run sched (init prev news n) in
  forall i r, readers s !! i = Some r -> reader_inside r = true ->
    lock s = Some (Reader i)
    /\ writer_inside (writer s) = false
    /\ (forall j r', readers s !! j = Some r' -> reader_inside r' = true -> j = i).
Proof.
  cbv zeta. intros i r Hi Hin.
  pose proof (run_inv prev news sched _ (inv_init prev news n)) as (_ & Hw & Hr).
  assert (Hlock : forall j r', readers (run sched (init prev news n)) !! j = Some r' ->
                  reader_inside r' = true ->
                  lock (run sched (init prev news n)) = Some (Reader j)).
  { intros j r' Hj Hin'. specialize (Hr j r' Hj).
    destruct r'; simpl in *; try discriminate; exact (proj1 Hr). }
  pose proof (Hlock i r Hi Hin) as Hl.
  split; [exact Hl|]. split.
  - destruct (writer _); simpl in *; [reflexivity| |];
      destruct Hw as [Hw _]; congruence.
  - intros j r' Hj Hin'. pose proof (Hlock j r' Hj Hin'). congruence.
Qed.

Lemma step_held (prev : list Detection) (news : list (list Detection))
    (a : action) (s s' : sys) :
  inv prev news s -> held s -> step a s = Some s' -> held s'.
Proof.
  intros (_ & Hw & Hr) Hh. destruct a as [|i]; simpl.
  - unfold writer_step.
    destruct (writer s) as [[|l pending]|l pending|pending] eqn:Ew; simpl in Hw.
    + discriminate.
    + destruct (lock s); [discriminate|]. intros [= <-]. reflexivity.
    + intros [= <-]. destruct Hw as [Hl _]. unfold held; simpl. rewrite Hl.
      reflexivity.
    + intros [= <-]. exact I.
  - unfold reader_step.
    destruct (readers s !! i) as [[|acc|acc|x]|] eqn:Ei; try discriminate.
    + destruct (lock s); [discriminate|]. intros [= <-]. unfold held; simpl.
      eexists. split;
        [apply list_lookup_insert_eq; exact (lookup_lt_Some _ _ _ Ei) | reflexivity].
    + destruct (Hr i _ Ei) as [Hl _].
      destruct (store s !! length acc); intros [= <-]; unfold held; simpl;
        rewrite Hl; eexists;
        (split; [apply list_lookup_insert_eq; exact (lookup_lt_Some _ _ _ Ei)
                | reflexivity]).
    + intros [= <-]. exact I.
Qed.

Lemma run_inv_held (prev : list Detection) (news : list (list Detection))
    (sched : list action) (s : sys) :
  inv prev news s -> held s ->
  inv prev news (run sched s) /\ held (run sched s).
Proof.
  revert s. induction sched as [|a sched IH]; intros s Hi Hh; simpl; [auto|].
  destruct (step a s) as [s'|] eqn:E.
  - apply IH; [exact (step_inv _ _ _ _ _ Hi E) | exact (step_held _ _ _ _ _ Hi Hh E)].
  - apply IH; assumption.
Qed.

Lemma not_all_done (l : list rstate) :
  forallb reader_done l = false ->
  exists i r, l !! i = Some r /\ reader_done r = false.
Proof.
  induction l as [|r l IH]; simpl; [discriminate|].
  destruct (reader_done r) eqn:Hr; simpl.
  - intros H. destruct (IH H) as (i & r' & Hi & Hd).
    exists (S i), r'. split; assumption.
  - intros _. exists 0%nat, r. split; [reflexivity | exact Hr].
Qed.

(** The lock is never left held for good: in every state of every
    schedule, unless every thread has finished, some thread can take a
    step (the holder of the lock when it is held, any unfinished
    thread when it is free). *)
Theorem store_no_deadlock (prev : list Detection)
    (news : list (list Detection)) (n : nat) (sched : list action) :
  let s := run sched (init prev news n) in
  finished s = false -> exists a s', step a s = Some s'.
Proof.
  cbv zeta.
  destruct (run_inv_held prev news sched (init prev news n)
              (inv_init prev news n) I) as [(_ & Hw & Hr) Hh].
  set (s := run sched (init prev news n)) in *.
  intros Hfin. unfold held in Hh. destruct (lock s) as [[|i]|] eqn:El.
  - (* the worker holds the lock *)
    exists Writer. simpl. unfold writer_step.
    destruct (writer s) as [p|l p|p]; [discriminate Hh | |]; eexists; reflexivity.
  - (* reader [i] holds the lock *)
    destruct Hh as (r & Hi & Hin). exists (Reader i). simpl. unfold reader_step.
    rewrite Hi. destruct r as [|acc|acc|x]; try discriminate Hin.
    + destruct (store s !! length acc); eexists; reflexivity.
    + eexists; reflexivity.
  - (* the lock is free *)
    unfold finished in Hfin.
    destruct (writer s) as [[|l p]|l p|p] eqn:Ew.
    + destruct (not_all_done _ Hfin) as (i & r & Hi & Hd).
      exists (Reader i). simpl. unfold reader_step. rewrite Hi, El.
      specialize (Hr i r Hi).
      destruct r as [|acc|acc|x]; simpl in *.
      * eexists; reflexivity.
      * destruct Hr; discriminate.
      * destruct Hr; discriminate.
      * discriminate.
    + exists Writer. simpl. unfold writer_step. rewrite Ew, El.
      eexists; reflexivity.
    + destruct Hw as [Hw _]. discriminate.
    + destruct Hw as [Hw _]. discriminate.
Qed.

(** A read that starts after the worker has finished installing [L]
    never returns the previous snapshot: whatever the schedule of the
    readers afterwards, what one returns is [L]; and a reader left to
    run does return it. *)
Theorem read_after_replace (prev L : list Detection) (n : nat)
    (sched : list action) (i : nat) :
  (forall r,
      returned i (run ([Writer; Writer; Writer] ++ sched) (init prev [L] n))
      = Some r -> r = L)
  /\ ((i < n)%nat ->
      returned i (run ([Writer; Writer; Writer] ++ solo i (length L))
                    (init prev [L] n)) = Some L).
Proof.
  assert (Hw : run [Writer; Writer; Writer] (init prev [L] n) = init L [] n)
    by reflexivity.
  split.
  - intros r. rewrite run_app, Hw. intros H.
    destruct (returned_in_history L [] n sched i r H) as [E|[]].
    symmetry. exact E.
  - intros Hi. rewrite run_app, Hw.
    apply (run_solo i (init L [] n)); [reflexivity|].
    simpl. apply lookup_replicate. split; [reflexivity | exact Hi].
Qed.

Lemma store_mutual_exclusion_witness :
  lock (run [Reader 0; Reader 0] (init (current_detections running_api) [[]] 2))
  = Some (Reader 0)
  /\ writer_inside
       (writer (run [Reader 0; Reader 0]
                  (init (current_detections running_api) [[]] 2))) = false.
Proof.
  destruct (store_mutual_exclusion (current_detections running_api) [[]] 2
              [Reader 0; Reader 0] 0 (RCopying (current_detections running_api))
              eq_refl eq_refl) as (H1 & H2 & _).
  split; [exact H1 | exact H2].
Defined.

Lemma store_no_deadlock_witness :
  finished (run [Reader 0; Writer]
              (init (current_detections running_api) [[]] 2)) = false
  /\ exists a s',
       step a (run [Reader 0; Writer]
                 (init (current_detections running_api) [[]] 2)) = Some s'.
Proof.
  split; [reflexivity|].
  exact (store_no_deadlock (current_detections running_api) [[]] 2
           [Reader 0; Writer] eq_refl).
Defined.

(** ** Thresholds of the query *)

Ltac compare_cases :=
  repeat match goal with
  | |- context [Z.compare ?a ?b] =>
      destruct (Z.compare_spec a b); try lia; subst
  | H : context [Z.compare ?a ?b] |- _ =>
      destruct (Z.compare_spec a b); try lia; subst
  | |- context [Pos.compare ?a ?b] =>
      destruct (Pos.compare_spec a b); try lia; subst
  | H : context [Pos.compare ?a ?b] |- _ =>
      destruct (Pos.compare_spec a b); try lia; subst
  end.

Lemma SFltb_leb_trans (x y z : spec_float) :
  SFltb x y = true -> SFleb y z = true -> SFltb x z = true.
Proof.
  unfold SFltb, SFleb.
  destruct x as [sx|sx| |sx mx ex], y as [sy|sy| |sy my ey], z as [sz|sz| |sz mz ez];
    simpl; try discriminate; try reflexivity;
    repeat match goal with s : bool |- _ => destruct s end;
    simpl; try discriminate; try reflexivity;
    rewrite ?Pos.compare_cont_spec; simpl Pos.switch_Eq;
    intros H1 H2; compare_cases; simpl in *;
    try discriminate; try reflexivity; try lia.
Qed.

Lemma SFleb_ltb_trans (x y z : spec_float) :
  SFleb x y = true -> SFltb y z = true -> SFltb x z = true.
Proof.
  unfold SFltb, SFleb.
  destruct x as [sx|sx| |sx mx ex], y as [sy|sy| |sy my ey], z as [sz|sz| |sz mz ez];
    simpl; try discriminate; try reflexivity;
    repeat match goal with s : bool |- _ => destruct s end;
    simpl; try discriminate; try reflexivity;
    rewrite ?Pos.compare_cont_spec; simpl Pos.switch_Eq;
    intros H1 H2; compare_cases; simpl in *;
    try discriminate; try reflexivity; try lia.
Qed.

(** [a < b] and [b <= c] give [a < c]; [a <= b] and [b < c] give
    [a < c]. *)
Lemma flt_fle_trans (a b c : float) :
  flt a b = true -> fle b c = true -> flt a c = true.
Proof.
  unfold flt, fle. rewrite !FloatAxioms.ltb_spec, FloatAxioms.leb_spec.
  apply SFltb_leb_trans.
Qed.

Lemma fle_flt_trans (a b c : float) :
  fle a b = true -> flt b c = true -> flt a c = true.
Proof.
  unfold flt, fle. rewrite !FloatAxioms.ltb_spec, FloatAxioms.leb_spec.
  apply SFleb_ltb_trans.
Qed.

(** Tightening a threshold only removes detections: with the same
    class filter, a minimum confidence that is not smaller and a
    maximum depth that is not larger (or newly given) keep a
    subsequence of what the looser arguments keep; so when the route
    answers the looser query it answers the tighter one too. *)
Theorem query_thresholds_monotone (q1 q2 : QueryArgs) (S : list Detection)
    (Hclass : arg_class q1 = arg_class q2)
    (Hconf : fle (min_confidence_of q1) (min_confidence_of q2) = true)
    (Hdepth : depth_looser q1 q2) :
  sublist (filtered_of q2 S) (filtered_of q1 S)
  /\ ((exists r, query_objects q1 S = inr r) -> exists r, query_objects q2 S = inr r).
Proof.
  assert (Hsub : sublist (filtered_of q2 S) (filtered_of q1 S)).
  { rewrite !filtered_of_filter. apply filter_sublist_impl. intros d.
    unfold passes. rewrite Hclass. intros H.
    apply andb_true_iff in H as [H H3]. apply andb_true_iff in H as [H1 H2].
    rewrite H1. simpl.
    assert (Hc : flt (det_confidence d) (min_confidence_of q1) = false).
    { destruct (flt (det_confidence d) (min_confidence_of q1)) eqn:E; [|reflexivity].
      rewrite (flt_fle_trans _ _ _ E Hconf) in H2. discriminate. }
    rewrite Hc. simpl.
    unfold depth_looser in Hdepth.
    destruct (arg_max_depth q1) as [b1|]; [|reflexivity].
    destruct (arg_max_depth q2) as [b2|]; [|contradiction].
    destruct (fgt (det_depth d) b1) eqn:E; [|reflexivity].
    unfold fgt in *. change (flt b1 (det_depth d) = true) in E.
    pose proof (fle_flt_trans _ _ _ Hdepth E) as E2. unfold flt in E2.
    rewrite E2 in H3. discriminate. }
  split; [exact Hsub|].
  rewrite !query_objects_answer. intros [r Hr].
  destruct (filtered_of q1 S); [|discriminate].
  apply sublist_nil_r in Hsub. rewrite Hsub. eexists. reflexivity.
Qed.

Lemma query_thresholds_monotone_witness :
  filtered_of (at_least 0.8%float) (current_detections running_api) = []
  /\ sublist
       (filtered_of (at_least 0.8%float) (current_detections running_api))
       (filtered_of (at_least 0.5%float) (current_detections running_api)).
Proof.
  split; [reflexivity|].
  apply (query_thresholds_monotone (at_least 0.5%float) (at_least 0.8%float)
           (current_detections running_api)).
  - reflexivity.
  - reflexivity.
  - exact I.
Defined.

(** ** The [/ollama/prompt] route *)

Set Warnings "-clear-no-such-hyp".

Section PromptProperties.

Variable np_mean : list float -> float.
Variable fmt2f : float -> string.
Variable str_of : json -> string.

Abbreviation answer := (ollama_prompt np_mean fmt2f str_of).

(** [/ollama/prompt] answers 200 exactly when the body is a JSON
    object with a "prompt" key and the snapshot it reads is empty,
    and then returns that value as [original_prompt] together with
    the summary and the empty list of detections; it answers 400
    "Missing prompt in request" when the body is falsy (null, false,
    0, empty string, list or object) or is an object, list or string
    without "prompt"; a TypeError escapes the route on any other
    body that is not an object (a non-zero number, true, a list with
    the element "prompt", a string containing "prompt") and, the
    body being an object with "prompt", on every snapshot that holds
    a detection, which [jsonify] cannot encode. *)
Theorem ollama_prompt_answers (data : json) (now : string) (s s' : API) :
  ((exists body, answer data now s s' = inr (200, body))
   <-> ((exists d v, data = JDict d /\ dict_lookup "prompt" d = Some v)
        /\ current_detections s = []))
  /\ (forall d v, data = JDict d -> dict_lookup "prompt" d = Some v ->
      current_detections s = [] ->
      exists text limits caps,
        answer data now s s'
        = inr (200, Enhanced text
                      {| ctx_summary := get_detection_summary np_mean now s';
                         ctx_detections := [];
                         ctx_limitations := limits;
                         ctx_ollama_capabilities := caps |} v))
  /\ (answer data now s s' = inr (400, MissingPrompt "Missing prompt in request")
      <-> (py_truthy data = false
           \/ match data with
              | JDict d => dict_lookup "prompt" d = None
              | JList l => existsb (is_str "prompt") l = false
              | JStr text => contains "prompt" text = false
              | _ => False
              end))
  /\ (answer data now s s' = inl TypeError
      <-> (py_truthy data = true
           /\ match data with
              | JBool _ | JInt _ | JFloat _ => True
              | JList l => existsb (is_str "prompt") l = true
              | JStr text => contains "prompt" text = true
              | JDict d => dict_lookup "prompt" d <> None /\ current_detections s <> []
              | JNull => False
              end))
  /\ answer data now s s' <> inl KeyError.
Proof.
  unfold ollama_prompt, get_current_detections.
  destruct data as [|b|z|f|text|l|d]; simpl.
  - (* null *)
    repeat split; naive_solver.
  - (* a boolean *)
    destruct b; simpl; repeat split; naive_solver.
  - (* an integer *)
    destruct (z =? 0); simpl; repeat split; naive_solver.
  - (* a float *)
    destruct (PrimFloat.eqb f PrimFloat.zero); simpl; repeat split; naive_solver.
  - (* a string *)
    destruct (String.eqb text ""); simpl; [repeat split; naive_solver|].
    destruct (contains "prompt" text); simpl; repeat split; naive_solver.
  - (* a list *)
    destruct l as [|x l]; simpl; [repeat split; naive_solver|].
    destruct (is_str "prompt" x || existsb (is_str "prompt") l); simpl;
      repeat split; naive_solver.
  - (* an object *)
    destruct d as [|[k x] d]; simpl; [repeat split; naive_solver|].
    destruct (if String.eqb k "prompt" then Some x else dict_lookup "prompt" d)
      as [v|] eqn:E; simpl.
    + destruct (current_detections s) as [|det dets] eqn:Hs; simpl.
      * split; [split|].
        -- intros _. split; [|reflexivity].
           exists ((k, x) :: d), v. split; [reflexivity | exact E].
        -- intros _. eexists. reflexivity.
        -- split.
           ++ intros d' v' [= <-] H _. simpl in H. rewrite E in H.
              injection H as <-. do 3 eexists. reflexivity.
           ++ repeat split; naive_solver.
      * split; [split|].
        -- intros [body H]. discriminate.
        -- intros [_ H]. discriminate.
        -- split.
           ++ intros d' v' _ _ H. discriminate.
           ++ repeat split; naive_solver.
    + split; [split|].
      * intros [body H]. discriminate.
      * intros [(d' & v' & [= <-] & H) _]. simpl in H. rewrite E in H. discriminate.
      * split.
        -- intros d' v' [= <-] H. simpl in H. rewrite E in H. discriminate.
        -- repeat split; naive_solver.
Qed.

End PromptProperties.
